(** * superstring: the layered text buffer of [src/core/text-buffer.cc]

    A shallow embedding of [TextBuffer], [TextBuffer::Layer],
    [TextBuffer::Snapshot] and the surrogate-aware [Iterator], together with
    the properties of the buffer's specification that concern them.

    The translation unit uses three collaborators that live elsewhere in the
    repository: [Point], [Text]/[TextSlice] and [Patch].  [Point] is small
    enough to be modelled from its description; [Text] and [Patch] are taken
    as interfaces (type classes), so that the theorems about layers,
    snapshots and coalescence hold for any implementation of them.  A
    list-based instance follows the description of the two and is used to
    run the buffer on concrete texts, and to relate offsets and points of a
    text. *)

From Stdlib Require Import ZArith List Bool Lia.
Import ListNotations.
Local Open Scope Z_scope.

Set Implicit Arguments.

(** ** Machine integers *)

(** [uint32_t] arithmetic: every stored result is reduced modulo 2^32. *)
Definition u32 (z : Z) : Z := z mod 4294967296.

Definition UINT32_MAX : Z := 4294967295.

Definition LF : Z := 10.
Definition CR : Z := 13.

(** ** Point, Range, ClipResult *)

Record Point : Type := mkPoint { row : Z; column : Z }.

Record Range : Type := mkRange { range_start : Point; range_end : Point }.

Record ClipResult : Type := mkClip { c_position : Point; c_offset : Z }.

Module Point_.

(** [Point()] *)
Definition zero : Point := mkPoint 0 0.

(** Modelled from the spec: [point.h] is not part of the translation unit.
    Points are ordered lexicographically. *)
Definition ltb (a b : Point) : bool :=
  (row a <? row b) || ((row a =? row b) && (column a <? column b)).

Definition leb (a b : Point) : bool := negb (ltb b a).

Definition eqb (a b : Point) : bool :=
  (row a =? row b) && (column a =? column b).

(** Modelled from the spec: [traverse(a, b)] is [(a.row, a.column +
    b.column)] when [b.row == 0] and [(a.row + b.row, b.column)]
    otherwise, on [u32] fields. *)
Definition traverse (a b : Point) : Point :=
  if row b =? 0 then mkPoint (row a) (u32 (column a + column b))
  else mkPoint (u32 (row a + row b)) (column b).

(** Modelled from the spec: [traversal(a, b)] is the point [p] with
    [traverse(b, p) == a]. *)
Definition traversal (a b : Point) : Point :=
  if row a =? row b then mkPoint 0 (u32 (column a - column b))
  else mkPoint (u32 (row a - row b)) (column a).

Definition min (a b : Point) : Point := if ltb b a then b else a.

End Point_.

(** [Range::extent] *)
Definition Range_extent (r : Range) : Point :=
  Point_.traversal (range_end r) (range_start r).

(** ** The collaborators, as interfaces *)

(** What the buffer needs from [Text] and [TextSlice]. Code units are
    [uint16_t] values. *)
Class TextOps (Text TextSlice : Type) : Type := {
  Text_empty : Text;
  Text_size : Text -> Z;
  Text_extent : Text -> Point;
  Text_at : Text -> Point -> Z;
  Text_clip_position : Text -> Point -> ClipResult;
  Text_front : Text -> Z;
  Text_back : Text -> Z;
  Text_append : Text -> TextSlice -> Text;
  Text_splice : Text -> Point -> Point -> Text -> Text;
  TextSlice_of : Text -> TextSlice;
  TextSlice_slice : TextSlice -> Range -> TextSlice;
  TextSlice_prefix : TextSlice -> Point -> TextSlice;
  TextSlice_suffix : TextSlice -> Point -> TextSlice;
  TextSlice_size : TextSlice -> Z;
  TextSlice_extent : TextSlice -> Point;
  TextSlice_position_for_offset : TextSlice -> Z -> Point;
  TextSlice_units : TextSlice -> list Z
}.

(** A change as a [Patch] reports it. *)
Record Change (Text : Type) : Type := mkChange {
  old_start : Point;
  old_end : Point;
  new_start : Point;
  new_end : Point;
  old_text_size : Z;
  new_text : Text;
  preceding_old_text_size : Z;
  preceding_new_text_size : Z
}.

(** What the buffer needs from [Patch], [Serializer] and [Deserializer]. *)
Class PatchOps (Text Patch Serializer Deserializer : Type) : Type := {
  Patch_new : Patch;
  Patch_splice :
    Patch -> Point -> Point -> Point -> option Text -> Text -> Z -> Patch;
  Patch_find_change_for_new_position : Patch -> Point -> option (Change Text);
  Patch_change_for_new_position : Patch -> Point -> option (Change Text);
  Patch_find_change_ending_after_new_position :
    Patch -> Point -> option (Change Text);
  Patch_get_changes : Patch -> list (Change Text);
  Patch_get_change_count : Patch -> Z;
  Patch_clear : Patch -> Patch;
  Patch_combine : Patch -> Patch -> bool -> Patch;
  Patch_serialize : Patch -> Serializer -> Serializer;
  Patch_deserialize : Deserializer -> Patch * Deserializer;
  Serializer_append_u32 : Serializer -> Z -> Serializer;
  Point_serialize : Point -> Serializer -> Serializer;
  Deserializer_read_u32 : Deserializer -> Z * Deserializer;
  Point_deserialize : Deserializer -> Point * Deserializer
}.

(** ** Layers *)

Section Buffer.

Context {Text TextSlice Patch Serializer Deserializer : Type}.
Context {TO : TextOps Text TextSlice}.
Context {PO : PatchOps Text Patch Serializer Deserializer}.

(** [struct TextBuffer::Layer]. The union of [base_text] and
    [previous_layer] is carried by the stack the layer sits in: a stack is
    a list of layers, top first, and the [previous_layer] of an element is
    the element after it. *)
Record Layer : Type := mkLayer {
  patch : Patch;
  extent_ : Point;
  size_ : Z;
  snapshot_count : Z;
  is_first : bool;
  is_last : bool
}.

(** A chunk callback: a C++ lambda returning [bool] and updating the
    variables of type [S] it captured by reference. *)
Definition Callback (S : Type) : Type := TextSlice -> S -> bool * S.

(** The template parameter [T] of [character_at_], [clip_position_] and
    [for_each_chunk_in_range_]: the operations of the object below a
    layer. Chunk iteration can fail to finish within the iteration budget
    of an upper loop, hence the [option]. *)
Record Parent : Type := mkParent {
  p_size : Z;
  p_extent : Point;
  p_character_at : Point -> Z;
  p_clip_position : Point -> ClipResult;
  p_for_each_chunk_in_range :
    forall S : Type, Point -> Point -> Callback S -> S -> option (bool * S)
}.

(** [struct BaseLayer] *)
Definition BaseLayer (text : Text) : Parent :=
  {| p_size := Text_size text;
     p_extent := Text_extent text;
     p_character_at := fun position => Text_at text position;
     p_clip_position := fun position => Text_clip_position text position;
     p_for_each_chunk_in_range := fun S start end_ callback st =>
       Some (callback (TextSlice_slice (TextSlice_of text) (mkRange start end_)) st) |}.

(** [Layer::previous_column] *)
Definition previous_column (position : Point) : Point :=
  mkPoint (row position) (u32 (column position - 1)).

(** [Layer::character_at_] *)
Definition character_at_ (l : Layer) (previous_layer : Parent)
    (position : Point) : Z :=
  match Patch_find_change_for_new_position (patch l) position with
  | None => p_character_at previous_layer position
  | Some change =>
      if Point_.ltb position (new_end change) then
        Text_at (new_text change) (Point_.traversal position (new_start change))
      else
        p_character_at previous_layer
          (Point_.traverse (old_end change)
             (Point_.traversal position (new_end change)))
  end.

(** [Layer::clip_position_] *)
Definition clip_position_ (l : Layer) (previous_layer : Parent)
    (position : Point) : ClipResult :=
  let preceding_change :=
    if is_last l then Patch_change_for_new_position (patch l) position
    else Patch_find_change_for_new_position (patch l) position in
  match preceding_change with
  | None => p_clip_position previous_layer position
  | Some preceding_change =>
      let preceding_change_base_offset :=
        c_offset (p_clip_position previous_layer (old_start preceding_change)) in
      let preceding_change_current_offset :=
        u32 (preceding_change_base_offset
             + preceding_new_text_size preceding_change
             - preceding_old_text_size preceding_change) in
      if Point_.ltb position (new_end preceding_change) then
        let position_within_preceding_change :=
          Text_clip_position (new_text preceding_change)
            (Point_.traversal position (new_start preceding_change)) in
        if (c_offset position_within_preceding_change =? 0)
           && (0 <? column (old_start preceding_change))
           && (Text_front (new_text preceding_change) =? LF)
           && (p_character_at previous_layer
                 (previous_column (old_start preceding_change)) =? CR)
        then
          mkClip (previous_column (new_start preceding_change))
                 (u32 (preceding_change_current_offset - 1))
        else
          mkClip
            (Point_.traverse (new_start preceding_change)
               (c_position position_within_preceding_change))
            (u32 (preceding_change_current_offset
                  + c_offset position_within_preceding_change))
      else
        let base_location :=
          p_clip_position previous_layer
            (Point_.traverse (old_end preceding_change)
               (Point_.traversal position (new_end preceding_change))) in
        let distance_past_preceding_change :=
          mkClip
            (Point_.traversal (c_position base_location) (old_end preceding_change))
            (u32 (c_offset base_location
                  - (preceding_change_base_offset
                     + old_text_size preceding_change))) in
        let previous_character :=
          if 0 <? Text_size (new_text preceding_change) then
            Text_back (new_text preceding_change)
          else if 0 <? column (old_start preceding_change) then
            p_character_at previous_layer
              (previous_column (old_start preceding_change))
          else 0 in
        if (c_offset distance_past_preceding_change =? 0)
           && (c_offset base_location <? p_size previous_layer)
           && (previous_character =? CR)
           && (p_character_at previous_layer (c_position base_location) =? LF)
        then
          mkClip (previous_column (new_end preceding_change))
                 (u32 (preceding_change_current_offset
                       + Text_size (new_text preceding_change) - 1))
        else
          mkClip
            (Point_.traverse (new_end preceding_change)
               (c_position distance_past_preceding_change))
            (u32 (preceding_change_current_offset
                  + Text_size (new_text preceding_change)
                  + c_offset distance_past_preceding_change))
  end.

(** The second half of the body of the [while] loop of
    [Layer::for_each_chunk_in_range_], from the lookup of the next change
    on: the text of the parent up to that change (or up to the goal) is
    handed to the callback, and the loop goes on, as [continue] says, from
    the position reached. *)
Definition for_each_chunk_gap (S : Type)
    (continue : option (Change Text) -> Point -> Point -> S -> option (bool * S))
    (patch : Patch) (previous_layer : Parent) (goal_position : Point)
    (callback : Callback S) (current_position base_position : Point) (st : S)
    : option (bool * S) :=
  let change :=
    Patch_find_change_ending_after_new_position patch current_position in
  let next :=
    match change with
    | Some c =>
        (Point_.min goal_position (new_start c),
         Point_.min
           (Point_.traverse base_position
              (Point_.traversal goal_position current_position))
           (old_start c))
    | None =>
        (goal_position,
         Point_.traverse base_position
           (Point_.traversal goal_position current_position))
    end in
  let next_position := fst next in
  let next_base_position := snd next in
  match p_for_each_chunk_in_range previous_layer
          base_position next_base_position callback st with
  | None => None
  | Some (true, st') => Some (true, st')
  | Some (false, st') => continue change next_position next_base_position st'
  end.

(** The [while] loop of [Layer::for_each_chunk_in_range_]. Whether it
    ends depends on the patch, so the loop carries an iteration budget:
    [None] means the budget ran out before [current_position] reached
    [goal_position]. *)
Fixpoint for_each_chunk_loop (S : Type) (fuel : nat) (patch : Patch)
    (previous_layer : Parent) (goal_position : Point) (callback : Callback S)
    (change : option (Change Text)) (current_position base_position : Point)
    (st : S) {struct fuel} : option (bool * S) :=
  if negb (Point_.ltb current_position goal_position) then Some (false, st)
  else
    match fuel with
    | O => None
    | Datatypes.S fuel' =>
        let continue :=
          for_each_chunk_loop fuel' patch previous_layer goal_position callback in
        match change with
        | Some c =>
            if Point_.ltb current_position (new_end c) then
              let slice :=
                TextSlice_suffix
                  (TextSlice_prefix (TextSlice_of (new_text c))
                     (Point_.min
                        (Point_.traversal goal_position (new_start c))
                        (Point_.traversal (new_end c) (new_start c))))
                  (Point_.traversal current_position (new_start c)) in
              match callback slice st with
              | (true, st') => Some (true, st')
              | (false, st') =>
                  let current_position := new_end c in
                  if Point_.ltb goal_position current_position
                  then Some (false, st')
                  else
                    for_each_chunk_gap continue patch previous_layer
                      goal_position callback current_position
                      (Point_.traverse (old_end c)
                         (Point_.traversal current_position (new_end c)))
                      st'
              end
            else
              for_each_chunk_gap continue patch previous_layer
                goal_position callback current_position
                (Point_.traverse (old_end c)
                   (Point_.traversal current_position (new_end c)))
                st
        | None =>
            for_each_chunk_gap continue patch previous_layer
              goal_position callback current_position base_position st
        end
    end.

(** [Layer::for_each_chunk_in_range_] *)
Definition for_each_chunk_in_range_ (S : Type) (fuel : nat) (l : Layer)
    (previous_layer : Parent) (start end_ : Point) (callback : Callback S)
    (st : S) : option (bool * S) :=
  let goal_position := c_position (clip_position_ l previous_layer end_) in
  let current_position := c_position (clip_position_ l previous_layer start) in
  let base_position := current_position in
  let change := Patch_find_change_for_new_position (patch l) current_position in
  for_each_chunk_loop fuel (patch l) previous_layer goal_position callback change
    current_position base_position st.

(** A stack of layers seen from above, as the [T &previous_layer] argument
    of the templates: the dispatch on [is_first] of [Layer::character_at],
    [Layer::clip_position] and [Layer::for_each_chunk_in_range]. The empty
    stack stands for the base text. *)
Fixpoint Layer_view (fuel : nat) (base_text : Text) (stack : list Layer)
    : Parent :=
  match stack with
  | [] => BaseLayer base_text
  | l :: below =>
      let previous_layer :=
        if is_first l then BaseLayer base_text
        else Layer_view fuel base_text below in
      {| p_size := size_ l;
         p_extent := extent_ l;
         p_character_at := character_at_ l previous_layer;
         p_clip_position := clip_position_ l previous_layer;
         p_for_each_chunk_in_range := fun S start end_ callback st =>
           for_each_chunk_in_range_ fuel l previous_layer start end_ callback st |}
  end.

(** The object a layer delegates to: the base text for the first layer,
    the layer below otherwise. *)
Definition previous_of (fuel : nat) (base_text : Text) (l : Layer)
    (below : list Layer) : Parent :=
  if is_first l then BaseLayer base_text else Layer_view fuel base_text below.

(** [Layer::character_at] *)
Definition Layer_character_at (base_text : Text) (l : Layer)
    (below : list Layer) (position : Point) : Z :=
  character_at_ l (previous_of O base_text l below) position.

(** [Layer::clip_position] *)
Definition Layer_clip_position (base_text : Text) (l : Layer)
    (below : list Layer) (position : Point) : ClipResult :=
  clip_position_ l (previous_of O base_text l below) position.

(** [Layer::for_each_chunk_in_range] *)
Definition Layer_for_each_chunk_in_range (S : Type) (fuel : nat)
    (base_text : Text) (l : Layer) (below : list Layer) (start end_ : Point)
    (callback : Callback S) (st : S) : option (bool * S) :=
  for_each_chunk_in_range_ fuel l (previous_of fuel base_text l below)
    start end_ callback st.

(** [Layer::position_for_offset]: the lambda captures [position] and
    [offset] by reference; the value of the iteration is dropped. *)
Definition position_for_offset_callback (goal_offset : Z)
    : Callback (Point * Z) :=
  fun slice st =>
    let '(position, offset) := st in
    let size := TextSlice_size slice in
    if goal_offset <=? u32 (offset + size) then
      (true,
       (Point_.traverse position
          (TextSlice_position_for_offset slice (u32 (goal_offset - offset))),
        offset))
    else
      (false,
       (Point_.traverse position (TextSlice_extent slice), u32 (offset + size))).

Definition Layer_position_for_offset (fuel : nat) (base_text : Text)
    (l : Layer) (below : list Layer) (goal_offset : Z) : option Point :=
  match Layer_for_each_chunk_in_range fuel base_text l below
          (mkPoint 0 0) (extent_ l)
          (position_for_offset_callback goal_offset) (Point_.zero, 0) with
  | None => None
  | Some (_, (position, _)) => Some position
  end.

(** [Layer::set_text_in_range] *)
Definition Layer_set_text_in_range (base_text : Text) (l : Layer)
    (below : list Layer) (old_range : Range) (new_text : Text) : Layer :=
  let start := Layer_clip_position base_text l below (range_start old_range) in
  let end_ := Layer_clip_position base_text l below (range_end old_range) in
  let new_range_end :=
    Point_.traverse (c_position start) (Text_extent new_text) in
  let deleted_text_size := u32 (c_offset end_ - c_offset start) in
  {| patch :=
       Patch_splice (patch l) (range_start old_range) (Range_extent old_range)
         (Text_extent new_text) None new_text deleted_text_size;
     extent_ :=
       Point_.traverse new_range_end
         (Point_.traversal (extent_ l) (range_end old_range));
     size_ := u32 (size_ l + Text_size new_text - deleted_text_size);
     snapshot_count := snapshot_count l;
     is_first := is_first l;
     is_last := is_last l |}.

(** The lambdas of [Layer::text_in_range] and [Layer::chunks_in_range]:
    they add the slice to [result] and return [false]. *)
Definition append_slice : Callback Text :=
  fun slice result => (false, Text_append result slice).

Definition push_back_slice : Callback (list TextSlice) :=
  fun slice result => (false, result ++ [slice]).

(** [Layer::text_in_range] *)
Definition Layer_text_in_range (fuel : nat) (base_text : Text) (l : Layer)
    (below : list Layer) (range : Range) : option Text :=
  match Layer_for_each_chunk_in_range fuel base_text l below
          (range_start range) (range_end range)
          append_slice Text_empty with
  | None => None
  | Some (_, result) => Some result
  end.

(** [Layer::chunks_in_range] *)
Definition Layer_chunks_in_range (fuel : nat) (base_text : Text) (l : Layer)
    (below : list Layer) (range : Range) : option (list TextSlice) :=
  match Layer_for_each_chunk_in_range fuel base_text l below
          (range_start range) (range_end range)
          push_back_slice [] with
  | None => None
  | Some (_, result) => Some result
  end.

(** ** TextBuffer *)

(** [class TextBuffer]: the base text and the chain of layers hanging off
    [top_layer]. [lower] lists the layers reached from [top_layer] through
    [previous_layer], nearest first. *)
Record TextBuffer : Type := mkTextBuffer {
  base_text : Text;
  top_layer : Layer;
  lower : list Layer
}.

(** [Layer(Text *base_text)] *)
Definition Layer_of_text (base_text : Text) : Layer :=
  {| patch := Patch_new;
     extent_ := Text_extent base_text;
     size_ := Text_size base_text;
     snapshot_count := 0;
     is_first := true;
     is_last := true |}.

(** [Layer(Layer *previous_layer)] *)
Definition Layer_of_layer (previous_layer : Layer) : Layer :=
  {| patch := Patch_new;
     extent_ := extent_ previous_layer;
     size_ := size_ previous_layer;
     snapshot_count := 0;
     is_first := false;
     is_last := true |}.

(** [TextBuffer::TextBuffer(Text &&text)] *)
Definition TextBuffer_new (text : Text) : TextBuffer :=
  {| base_text := text; top_layer := Layer_of_text text; lower := [] |}.

Definition set_patch (l : Layer) (p : Patch) : Layer :=
  {| patch := p; extent_ := extent_ l; size_ := size_ l;
     snapshot_count := snapshot_count l; is_first := is_first l;
     is_last := is_last l |}.

Definition set_extent_size (l : Layer) (e : Point) (s : Z) : Layer :=
  {| patch := patch l; extent_ := e; size_ := s;
     snapshot_count := snapshot_count l; is_first := is_first l;
     is_last := is_last l |}.

Definition set_snapshot_count (l : Layer) (n : Z) : Layer :=
  {| patch := patch l; extent_ := extent_ l; size_ := size_ l;
     snapshot_count := n; is_first := is_first l; is_last := is_last l |}.

Definition set_is_last (l : Layer) (b : bool) : Layer :=
  {| patch := patch l; extent_ := extent_ l; size_ := size_ l;
     snapshot_count := snapshot_count l; is_first := is_first l;
     is_last := b |}.

(** [TextBuffer::reset_base_text] *)
Definition reset_base_text (b : TextBuffer) (new_base_text : Text)
    : bool * TextBuffer :=
  if negb (is_first (top_layer b)) then (false, b)
  else
    (true,
     {| base_text := new_base_text;
        top_layer :=
          set_extent_size
            (set_patch (top_layer b) (Patch_clear (patch (top_layer b))))
            (Text_extent new_base_text) (Text_size new_base_text);
        lower := lower b |}).

(** [TextBuffer::flush_outstanding_changes] *)
Definition flush_outstanding_changes (b : TextBuffer) : bool * TextBuffer :=
  if negb (is_first (top_layer b)) then (false, b)
  else
    (true,
     {| base_text :=
          fold_left
            (fun text change =>
               Text_splice text (new_start change)
                 (Point_.traversal (old_end change) (old_start change))
                 (new_text change))
            (Patch_get_changes (patch (top_layer b))) (base_text b);
        top_layer :=
          set_patch (top_layer b) (Patch_clear (patch (top_layer b)));
        lower := lower b |}).

(** [TextBuffer::serialize_outstanding_changes] *)
Definition serialize_outstanding_changes (b : TextBuffer)
    (serializer : Serializer) : bool * TextBuffer * Serializer :=
  if negb (is_first (top_layer b)) then (false, b, serializer)
  else
    (true, b,
     Point_serialize (extent_ (top_layer b))
       (Serializer_append_u32
          (Patch_serialize (patch (top_layer b)) serializer)
          (size_ (top_layer b)))).

(** [TextBuffer::deserialize_outstanding_changes] *)
Definition deserialize_outstanding_changes (b : TextBuffer)
    (deserializer : Deserializer) : bool * TextBuffer * Deserializer :=
  if negb (is_first (top_layer b))
     || (0 <? Patch_get_change_count (patch (top_layer b)))
  then (false, b, deserializer)
  else
    let '(p, d1) := Patch_deserialize deserializer in
    let '(s, d2) := Deserializer_read_u32 d1 in
    let '(e, d3) := Point_deserialize d2 in
    (true,
     {| base_text := base_text b;
        top_layer := set_extent_size (set_patch (top_layer b) p) e s;
        lower := lower b |},
     d3).

(** [TextBuffer::extent], [TextBuffer::size] *)
Definition extent (b : TextBuffer) : Point := extent_ (top_layer b).
Definition size (b : TextBuffer) : Z := size_ (top_layer b).

(** [TextBuffer::clip_position] *)
Definition clip_position (b : TextBuffer) (position : Point) : ClipResult :=
  Layer_clip_position (base_text b) (top_layer b) (lower b) position.

(** [TextBuffer::line_length_for_row] *)
Definition line_length_for_row (b : TextBuffer) (row : Z) : Z :=
  column (c_position (clip_position b (mkPoint row UINT32_MAX))).

(** [TextBuffer::position_for_offset] *)
Definition position_for_offset (fuel : nat) (b : TextBuffer) (offset : Z)
    : option Point :=
  Layer_position_for_offset fuel (base_text b) (top_layer b) (lower b) offset.

(** [TextBuffer::text_in_range] *)
Definition text_in_range (fuel : nat) (b : TextBuffer) (range : Range)
    : option Text :=
  Layer_text_in_range fuel (base_text b) (top_layer b) (lower b) range.

(** [TextBuffer::text] *)
Definition text (fuel : nat) (b : TextBuffer) : option Text :=
  text_in_range fuel b (mkRange Point_.zero (extent b)).

(** [TextBuffer::chunks] *)
Definition chunks (fuel : nat) (b : TextBuffer) : option (list TextSlice) :=
  Layer_chunks_in_range fuel (base_text b) (top_layer b) (lower b)
    (mkRange (mkPoint 0 0) (extent b)).

(** [TextBuffer::set_text_in_range] *)
Definition set_text_in_range (b : TextBuffer) (old_range : Range)
    (new_text : Text) : TextBuffer :=
  {| base_text := base_text b;
     top_layer :=
       Layer_set_text_in_range (base_text b) (top_layer b) (lower b)
         old_range new_text;
     lower := lower b |}.

(** [TextBuffer::set_text] *)
Definition set_text (b : TextBuffer) (new_text : Text) : TextBuffer :=
  set_text_in_range b (mkRange (mkPoint 0 0) (extent b)) new_text.

(** [TextBuffer::is_modified]: the walk down the chain stops at the first
    layer; a chain that ends before one is a dangling [previous_layer]. *)
Fixpoint is_modified_from (l : Layer) (below : list Layer) : option bool :=
  if 0 <? Patch_get_change_count (patch l) then Some true
  else if is_first l then Some false
  else
    match below with
    | [] => None
    | l' :: below' => is_modified_from l' below'
    end.

Definition is_modified (b : TextBuffer) : option bool :=
  is_modified_from (top_layer b) (lower b).

(** ** Snapshots *)

(** [class TextBuffer::Snapshot]. The [buffer] reference is the buffer the
    operations below are applied to; the [layer] reference is the height
    of the pinned layer in the chain (the number of layers under it),
    which stays fixed while layers are pushed and folded above it. *)
Record Snapshot : Type := mkSnapshot { layer : nat }.

Definition layers (b : TextBuffer) : list Layer := top_layer b :: lower b.

(** The layer at height [h] of a chain, with the layers under it. *)
Fixpoint find_layer (h : nat) (chain : list Layer)
    : option (Layer * list Layer) :=
  match chain with
  | [] => None
  | l :: below =>
      if Nat.eqb (length below) h then Some (l, below)
      else find_layer h below
  end.

(** The chain with the layer at height [h] replaced by its image. *)
Fixpoint update_layer (h : nat) (f : Layer -> Layer) (chain : list Layer)
    : list Layer :=
  match chain with
  | [] => []
  | l :: below =>
      if Nat.eqb (length below) h then f l :: below
      else l :: update_layer h f below
  end.

Definition buffer_of_chain (text : Text) (chain : list Layer)
    : option TextBuffer :=
  match chain with
  | [] => None
  | l :: below =>
      Some {| base_text := text; top_layer := l; lower := below |}
  end.

(** [TextBuffer::create_snapshot]. [None] is the dereference of a
    [previous_layer] that does not exist. *)
Definition create_snapshot (b : TextBuffer) : option (TextBuffer * Snapshot) :=
  if negb (is_first (top_layer b))
     && (Patch_get_change_count (patch (top_layer b)) =? 0)
  then
    match lower b with
    | [] => None
    | previous_layer :: below =>
        Some
          ({| base_text := base_text b;
              top_layer := top_layer b;
              lower :=
                set_snapshot_count previous_layer
                  (u32 (snapshot_count previous_layer + 1)) :: below |},
           mkSnapshot (length below))
    end
  else
    let layer := set_is_last (top_layer b) false in
    Some
      ({| base_text := base_text b;
          top_layer := Layer_of_layer layer;
          lower :=
            set_snapshot_count layer (u32 (snapshot_count layer + 1))
            :: lower b |},
       mkSnapshot (length (lower b))).

(** [Snapshot::size], [Snapshot::extent] *)
Definition Snapshot_size (b : TextBuffer) (s : Snapshot) : option Z :=
  match find_layer (layer s) (layers b) with
  | Some (l, _) => Some (size_ l)
  | None => None
  end.

Definition Snapshot_extent (b : TextBuffer) (s : Snapshot) : option Point :=
  match find_layer (layer s) (layers b) with
  | Some (l, _) => Some (extent_ l)
  | None => None
  end.

(** [Snapshot::line_length_for_row] *)
Definition Snapshot_line_length_for_row (b : TextBuffer) (s : Snapshot)
    (row : Z) : option Z :=
  match find_layer (layer s) (layers b) with
  | Some (l, below) =>
      Some (column (c_position
              (Layer_clip_position (base_text b) l below
                 (mkPoint row UINT32_MAX))))
  | None => None
  end.

(** [Snapshot::text_in_range] *)
Definition Snapshot_text_in_range (fuel : nat) (b : TextBuffer)
    (s : Snapshot) (range : Range) : option Text :=
  match find_layer (layer s) (layers b) with
  | Some (l, below) => Layer_text_in_range fuel (base_text b) l below range
  | None => None
  end.

(** [Snapshot::text] *)
Definition Snapshot_text (fuel : nat) (b : TextBuffer) (s : Snapshot)
    : option Text :=
  match find_layer (layer s) (layers b) with
  | Some (l, below) =>
      Layer_text_in_range fuel (base_text b) l below
        (mkRange (mkPoint 0 0) (extent_ l))
  | None => None
  end.

(** [Snapshot::chunks_in_range], [Snapshot::chunks] *)
Definition Snapshot_chunks_in_range (fuel : nat) (b : TextBuffer)
    (s : Snapshot) (range : Range) : option (list TextSlice) :=
  match find_layer (layer s) (layers b) with
  | Some (l, below) => Layer_chunks_in_range fuel (base_text b) l below range
  | None => None
  end.

Definition Snapshot_chunks (fuel : nat) (b : TextBuffer) (s : Snapshot)
    : option (list TextSlice) :=
  match find_layer (layer s) (layers b) with
  | Some (l, below) =>
      Layer_chunks_in_range fuel (base_text b) l below
        (mkRange (mkPoint 0 0) (extent_ l))
  | None => None
  end.

(** The first loop of [Snapshot::~Snapshot]: walking down from
    [top_layer], the layers pushed on [layers_to_remove] (in the order of
    the [push_back]s), the layer the walk stops at and the layers under
    it. [None] is the dereference of a [previous_layer] that does not
    exist. *)
Fixpoint collect_layers_to_remove (top_layer : Layer) (below : list Layer)
    : option (list Layer * Layer * list Layer) :=
  if is_first top_layer then Some ([], top_layer, below)
  else
    match below with
    | [] => None
    | previous_layer :: below' =>
        if snapshot_count previous_layer =? 0 then
          match collect_layers_to_remove previous_layer below' with
          | Some (layers_to_remove, l, rest) =>
              Some (top_layer :: layers_to_remove, l, rest)
          | None => None
          end
        else Some ([], top_layer, below)
    end.

(** The second loop of [Snapshot::~Snapshot], over [iter]: the layer whose
    patch each [Patch::combine] call receives, with the [left_to_right]
    flag of the call. *)
Fixpoint combine_calls (iter : list Layer) (left_to_right : bool)
    : list (Layer * bool) :=
  match iter with
  | [] => []
  | l :: iter' => (l, left_to_right) :: combine_calls iter' (negb left_to_right)
  end.

(** The effect of those calls on [top_layer->patch]. *)
Definition run_combine_calls (p : Patch) (calls : list (Layer * bool))
    : Patch :=
  fold_left (fun p call => Patch_combine p (patch (fst call)) (snd call))
    calls p.

(** [TextBuffer::Snapshot::~Snapshot], first three statements: the
    assertion and the decrement of the pinned layer's count. Gives the
    buffer after the decrement and the new count; [None] is a failed
    [assert] or a layer that does not exist. *)
Definition release_pin (b : TextBuffer) (s : Snapshot)
    : option (TextBuffer * Z) :=
  match find_layer (layer s) (layers b) with
  | None => None
  | Some (l, _) =>
      if negb (0 <? snapshot_count l) then None
      else
        let count := u32 (snapshot_count l - 1) in
        match
          buffer_of_chain (base_text b)
            (update_layer (layer s)
               (fun l => set_snapshot_count l count) (layers b))
        with
        | None => None
        | Some b1 => Some (b1, count)
        end
  end.

(** [TextBuffer::Snapshot::~Snapshot], from the search for the topmost
    layer without snapshots on: the buffer after coalescence and the
    [Patch::combine] calls made, in order. *)
Definition coalesce (b1 : TextBuffer)
    : option (TextBuffer * list (Layer * bool)) :=
  match collect_layers_to_remove (top_layer b1) (lower b1) with
  | None => None
  | Some (layers_to_remove, top_layer', rest) =>
      let resized :=
        set_extent_size top_layer'
          (extent_ (top_layer b1)) (size_ (top_layer b1)) in
      let calls := combine_calls (rev layers_to_remove) true in
      let combined :=
        set_patch resized (run_combine_calls (patch resized) calls) in
      Some ({| base_text := base_text b1;
               top_layer := set_is_last combined true;
               lower := rest |},
            calls)
  end.

(** [TextBuffer::Snapshot::~Snapshot], with the [Patch::combine] calls it
    makes. *)
Definition Snapshot_destroy_calls (b : TextBuffer) (s : Snapshot)
    : option (TextBuffer * list (Layer * bool)) :=
  match release_pin b s with
  | None => None
  | Some (b1, count) =>
      if 0 <? count then Some (b1, [])
      else if 0 <? snapshot_count (top_layer b1) then Some (b1, [])
      else coalesce b1
  end.

Definition Snapshot_destroy (b : TextBuffer) (s : Snapshot)
    : option TextBuffer :=
  option_map fst (Snapshot_destroy_calls b s).

(** Edits, as a caller issues them. *)
Inductive Edit : Type :=
| SetTextInRange (old_range : Range) (new_text : Text)
| SetText (new_text : Text).

Definition apply_edit (b : TextBuffer) (e : Edit) : TextBuffer :=
  match e with
  | SetTextInRange old_range new_text => set_text_in_range b old_range new_text
  | SetText new_text => set_text b new_text
  end.

Definition apply_edits (b : TextBuffer) (es : list Edit) : TextBuffer :=
  fold_left apply_edit es b.

(** ** Assumptions on the collaborators, named *)

(** The two lookups of [clip_position_] locate the same change of a layer's
    patch for a position. *)
Definition lookups_agree (l : Layer) (position : Point) : Prop :=
  Patch_change_for_new_position (patch l) position
  = Patch_find_change_for_new_position (patch l) position.

(** A patch in which no lookup locates a change. *)
Definition locates_nothing (p : Patch) : Prop :=
  forall position,
    Patch_change_for_new_position p position = None
    /\ Patch_find_change_for_new_position p position = None
    /\ Patch_find_change_ending_after_new_position p position = None.

(** Points whose fields are [u32] values. *)
Definition Point_valid (p : Point) : Prop :=
  (0 <= row p < 4294967296) /\ (0 <= column p < 4294967296).

(** Clipping a position through a view gives a point with [u32] fields that
    clips to itself. *)
Definition clip_stable (view : Parent) (position : Point) : Prop :=
  Point_valid (c_position (p_clip_position view position))
  /\ c_position (p_clip_position view
                   (c_position (p_clip_position view position)))
     = c_position (p_clip_position view position).


(** Running a callback over a list of chunks, stopping when it returns
    [true]. *)
Fixpoint run_callback (S : Type) (callback : Callback S) (cs : list TextSlice)
    (st : S) : bool * S :=
  match cs with
  | [] => (false, st)
  | c :: cs' =>
      match callback c st with
      | (true, st') => (true, st')
      | (false, st') => run_callback callback cs' st'
      end
  end.

(** The text read off a base text through a first layer whose patch locates
    nothing: one chunk, from the clipped start to the clipped extent. *)
Definition read_of_base_text (t : Text) : Text :=
  let start := c_position (Text_clip_position t (mkPoint 0 0)) in
  let goal := c_position (Text_clip_position t (Text_extent t)) in
  if Point_.ltb start goal then
    Text_append Text_empty
      (TextSlice_slice (TextSlice_of t)
         (mkRange start
            (Point_.traverse start (Point_.traversal goal start))))
  else Text_empty.


(** The total size of a list of chunks, and the point reached from [p] by
    traversing their extents in order. *)
Definition chunks_size (cs : list TextSlice) : Z :=
  fold_right (fun c n => TextSlice_size c + n) 0 cs.

Definition chunks_extent (cs : list TextSlice) (p : Point) : Point :=
  fold_left (fun p c => Point_.traverse p (TextSlice_extent c)) cs p.

(** A view whose chunk iteration hands the same chunks to every callback:
    when collecting the chunks of a range ends, any other callback is run
    over the chunks collected. *)
Definition uniform_iteration (v : Parent) : Prop :=
  forall (start end_ : Point) (acc : list TextSlice) (stop : bool)
         (r : list TextSlice),
    p_for_each_chunk_in_range v start end_ push_back_slice acc = Some (stop, r) ->
    exists cs,
      stop = false /\ r = acc ++ cs
      /\ forall (S : Type) (callback : Callback S) (st : S),
           p_for_each_chunk_in_range v start end_ callback st
           = Some (run_callback callback cs st).

(** The same for a run of the loop of [for_each_chunk_in_range_], from the
    state the loop is in. *)
Definition uniform_run
    (run : forall S : Type, Callback S -> option (Change Text) -> Point ->
                            Point -> S -> option (bool * S)) : Prop :=
  forall change current base acc stop r,
    run _ push_back_slice change current base acc = Some (stop, r) ->
    exists cs,
      stop = false /\ r = acc ++ cs
      /\ forall (S : Type) (callback : Callback S) (st : S),
           run S callback change current base st
           = Some (run_callback callback cs st).


(** The reading of the fold order as "from the top layer down": the layers
    handed to [Patch::combine] are [layers_to_remove] in the order they
    were collected. *)
Definition folds_from_the_top_down (b : TextBuffer) (s : Snapshot) : Prop :=
  forall b1 removed L rest b' calls,
    release_pin b s = Some (b1, 0) ->
    collect_layers_to_remove (top_layer b1) (lower b1) = Some (removed, L, rest) ->
    Snapshot_destroy_calls b s = Some (b', calls) ->
    map fst calls = removed.


(** ** Line endings *)

(** The three static arrays of [TextBuffer::line_ending_for_row], without
    their terminating 0. *)
Definition ending_NONE : list Z := [].
Definition ending_LF : list Z := [LF].
Definition ending_CRLF : list Z := [CR; LF].

(** The lambda of [TextBuffer::line_ending_for_row]: an empty slice lets
    the iteration go on; the first unit of any other slice decides. *)
Definition line_ending_callback : Callback (list Z) :=
  fun slice result =>
    match TextSlice_units slice with
    | [] => (false, result)
    | c :: _ => (true, if c =? CR then ending_CRLF else ending_LF)
    end.

(** [TextBuffer::line_ending_for_row] *)
Definition line_ending_for_row (fuel : nat) (b : TextBuffer) (row : Z)
    : option (list Z) :=
  match Layer_for_each_chunk_in_range fuel (base_text b) (top_layer b)
          (lower b) (mkPoint row UINT32_MAX) (mkPoint (u32 (row + 1)) 0)
          line_ending_callback ending_NONE with
  | None => None
  | Some (_, result) => Some result
  end.

(** The first code unit of a list of chunks, empty chunks skipped. *)
Fixpoint first_unit (cs : list TextSlice) : option Z :=
  match cs with
  | [] => None
  | c :: cs' =>
      match TextSlice_units c with
      | [] => first_unit cs'
      | u :: _ => Some u
      end
  end.

(** ** The shape of the chain *)

(** The flags of a chain as the constructors and [create_snapshot] set
    them: [is_last] on the top layer only, [is_first] on the bottom layer
    only, and no pin on the top layer. *)
Fixpoint first_at_bottom (l : Layer) (below : list Layer) : Prop :=
  match below with
  | [] => is_first l = true
  | l' :: below' => is_first l = false /\ first_at_bottom l' below'
  end.

Definition well_formed (b : TextBuffer) : Prop :=
  first_at_bottom (top_layer b) (lower b)
  /\ is_last (top_layer b) = true
  /\ Forall (fun l => is_last l = false) (lower b)
  /\ snapshot_count (top_layer b) = 0.


End Buffer.

(** ** The surrogate-aware iterator *)

Module Iterator.

(** [class Iterator]. A chunk is the sequence of code units between the
    [begin()] and [end()] of a [TextSlice]; the three
    [Text::const_iterator]s are positions in the chunk at [chunk_index],
    counted from its [begin()]. *)
Record t : Type := mk {
  chunks : list (list Z);
  chunk_index : Z;
  chunk_begin : Z;
  chunk_end : Z;
  chunk_iterator : Z
}.

Definition is_high_surrogate (c : Z) : bool :=
  Z.land c 56320 =? 55296.

Definition is_low_surrogate (c : Z) : bool :=
  (56320 <=? c) && (c <=? 57343).

(** [chunks->at(i)]: [None] when [i] is out of range. *)
Definition chunk_at (cs : list (list Z)) (i : Z) : option (list Z) :=
  if i <? 0 then None else nth_error cs (Z.to_nat i).

(** Reading through a [Text::const_iterator]; [None] outside the chunk. *)
Definition unit_at (it : t) (p : Z) : option Z :=
  match chunk_at (chunks it) (chunk_index it) with
  | None => None
  | Some c => if p <? 0 then None else nth_error c (Z.to_nat p)
  end.

(** [Iterator()] *)
Definition sentinel (cs : list (list Z)) : t :=
  {| chunks := cs; chunk_index := UINT32_MAX;
     chunk_begin := 0; chunk_end := 0; chunk_iterator := 0 |}.

(** [Iterator(const vector<TextSlice> &chunks)] *)
Definition of_chunks (cs : list (list Z)) : option t :=
  match cs with
  | [] => None
  | c :: _ =>
      Some {| chunks := cs; chunk_index := 0; chunk_begin := 0;
              chunk_end := Z.of_nat (length c); chunk_iterator := 0 |}
  end.

(** The loop of [advance_chunk_if_needed] once [chunk_iterator] has
    reached [chunk_end]: [rest] are the chunks from [index] on. *)
Fixpoint advance_chunks (cs rest : list (list Z)) (index : Z) : bool * t :=
  match rest with
  | [] => (false, sentinel cs)
  | c :: rest' =>
      if Z.of_nat (length c) =? 0 then advance_chunks cs rest' (index + 1)
      else
        (true,
         {| chunks := cs; chunk_index := index; chunk_begin := 0;
            chunk_end := Z.of_nat (length c); chunk_iterator := 0 |})
  end.

Definition advance_chunk_if_needed (it : t) : bool * t :=
  if chunk_iterator it =? chunk_end it then
    let index := u32 (chunk_index it + 1) in
    advance_chunks (chunks it) (skipn (Z.to_nat index) (chunks it)) index
  else (true, it).

Definition set_chunk_iterator (it : t) (p : Z) : t :=
  {| chunks := chunks it; chunk_index := chunk_index it;
     chunk_begin := chunk_begin it; chunk_end := chunk_end it;
     chunk_iterator := p |}.

(** [operator++] *)
Definition incr (it : t) : option t :=
  let it1 := set_chunk_iterator it (chunk_iterator it + 1) in
  match advance_chunk_if_needed it1 with
  | (false, it2) => Some it2
  | (true, it2) =>
      match unit_at it2 (chunk_iterator it2) with
      | None => None
      | Some c =>
          if is_high_surrogate c then
            Some (snd (advance_chunk_if_needed
                         (set_chunk_iterator it2 (chunk_iterator it2 + 1))))
          else Some it2
      end
  end.

(** [operator--] *)
Definition decr (it : t) : option t :=
  let moved :=
    if chunk_iterator it =? chunk_begin it then
      if 0 <? chunk_index it then
        match chunk_at (chunks it) (chunk_index it - 1) with
        | None => None
        | Some c =>
            Some {| chunks := chunks it; chunk_index := chunk_index it - 1;
                    chunk_begin := 0; chunk_end := Z.of_nat (length c);
                    chunk_iterator := Z.of_nat (length c) - 1 |}
        end
      else Some it
    else Some (set_chunk_iterator it (chunk_iterator it - 1)) in
  match moved with
  | None => None
  | Some it1 =>
      if negb (chunk_iterator it1 =? chunk_begin it1) then
        match unit_at it1 (chunk_iterator it1) with
        | None => None
        | Some c =>
            if is_low_surrogate c then
              Some (set_chunk_iterator it1 (chunk_iterator it1 - 1))
            else Some it1
        end
      else Some it1
  end.

(** [operator*] *)
Definition deref (it : t) : option Z :=
  match unit_at it (chunk_iterator it) with
  | None => None
  | Some c =>
      if is_high_surrogate c then
        let next_iterator := chunk_iterator it + 1 in
        if negb (next_iterator =? chunk_end it) then
          match unit_at it next_iterator with
          | None => None
          | Some n =>
              Some (Z.lor (Z.shiftl (Z.land c 1023) 10) (Z.land n 1023) + 65536)
          end
        else Some c
      else Some c
  end.

(** [operator==] *)
Definition eqb (a b : t) : bool :=
  if chunk_index a =? UINT32_MAX then chunk_index b =? UINT32_MAX
  else (chunk_index a =? chunk_index b)
       && (chunk_iterator a =? chunk_iterator b).

(** An iterator that rests on a code unit: its chunk exists, the three
    positions are those of that chunk and [chunk_iterator] is inside it. *)
Definition on_unit (it : t) : Prop :=
  exists c,
    chunk_at (chunks it) (chunk_index it) = Some c
    /\ chunk_begin it = 0
    /\ chunk_end it = Z.of_nat (length c)
    /\ 0 <= chunk_iterator it < chunk_end it.

(** The code point of a surrogate pair, as UTF-16 defines it. *)
Definition code_point (hi lo : Z) : Z :=
  65536 + (hi - 55296) * 1024 + (lo - 56320).


End Iterator.

(** ** The start of a search *)

Section Search.

Context {Text TextSlice Patch Serializer Deserializer : Type}.
Context {TO : TextOps Text TextSlice}.
Context {PO : PatchOps Text Patch Serializer Deserializer}.

(** [TextBuffer::search], from [vector<TextSlice> chunks = this->chunks()]
    to the construction of [Iterator(chunks)], the first argument of
    [regex_search]; the regular expression engine itself is outside the
    translation unit. The outer [None] is an iteration budget that ran
    out, the inner one the read of [chunks[0]] in a vector without
    elements. *)
Definition search_begin (fuel : nat) (b : @TextBuffer Text Patch)
    : option (option Iterator.t) :=
  match chunks fuel b with
  | None => None
  | Some cs => Some (Iterator.of_chunks (map TextSlice_units cs))
  end.

End Search.


(** ** A list-based instance of the collaborators

    Used to run the buffer on concrete texts. *)

Module ListModel.

(** Modelled from the spec: [Text] and [TextSlice] are not part of the
    translation unit. A text is its sequence of UTF-16 code units; a slice
    is the sequence of units it covers. Rows are ended by LF; a CR directly
    before the LF belongs to the line ending. *)
Definition Text : Type := list Z.
Definition TextSlice : Type := list Z.

Definition is_high (c : Z) : bool := (55296 <=? c) && (c <=? 56319).
Definition is_low (c : Z) : bool := (56320 <=? c) && (c <=? 57343).

Definition size (units : list Z) : Z := Z.of_nat (length units).

(** The extent of [c :: rest] from the extent of [rest]. *)
Fixpoint extent (units : list Z) : Point :=
  match units with
  | [] => mkPoint 0 0
  | c :: rest =>
      let e := extent rest in
      if c =? LF then mkPoint (row e + 1) (column e)
      else if row e =? 0 then mkPoint 0 (column e + 1)
      else e
  end.

(** The offset at which row [r] starts, when the text has that row. *)
Fixpoint row_offset (units : list Z) (r : nat) : option nat :=
  match r, units with
  | O, _ => Some O
  | S _, [] => None
  | S r', c :: rest =>
      option_map S (row_offset rest (if c =? LF then r' else r))
  end.

(** The number of units of the first row before its line ending. *)
Fixpoint line_length (units : list Z) : nat :=
  match units with
  | [] => O
  | c :: rest =>
      if c =? LF then O
      else if (c =? CR) && (match rest with n :: _ => n =? LF | [] => false end)
      then O
      else S (line_length rest)
  end.

Definition unit_at (units : list Z) (o : Z) : Z :=
  if o <? 0 then 0 else nth (Z.to_nat o) units 0.

(** Modelled from the spec: a point past the last row clips to the end of
    the text, a column past the end of its row (which includes a point
    between CR and LF) clips to the end of the row, and a point between
    the two halves of a surrogate pair clips to the start of the pair. *)
Definition clip_position (units : list Z) (p : Point) : ClipResult :=
  match (if row p <? 0 then None else row_offset units (Z.to_nat (row p))) with
  | None => mkClip (extent units) (size units)
  | Some start =>
      let len := Z.of_nat (line_length (skipn start units)) in
      if len <? column p then
        mkClip (mkPoint (row p) len) (Z.of_nat start + len)
      else
        let o := Z.of_nat start + column p in
        if (0 <? column p) && is_high (unit_at units (o - 1))
           && is_low (unit_at units o)
        then mkClip (mkPoint (row p) (column p - 1)) (o - 1)
        else mkClip p o
  end.

Definition at_ (units : list Z) (p : Point) : Z :=
  match (if row p <? 0 then None else row_offset units (Z.to_nat (row p))) with
  | None => 0
  | Some start => unit_at units (Z.of_nat start + column p)
  end.

Definition offset_of (units : list Z) (p : Point) : nat :=
  Z.to_nat (c_offset (clip_position units p)).

Definition slice (units : list Z) (r : Range) : list Z :=
  skipn (offset_of units (range_start r))
    (firstn (offset_of units (range_end r)) units).

Definition prefix (units : list Z) (p : Point) : list Z :=
  firstn (offset_of units p) units.

Definition suffix (units : list Z) (p : Point) : list Z :=
  skipn (offset_of units p) units.

Definition position_for_offset (units : list Z) (o : Z) : Point :=
  extent (firstn (Z.to_nat o) units).

Definition splice (units : list Z) (start deletion_extent : Point)
    (new_units : list Z) : list Z :=
  firstn (offset_of units start) units ++ new_units
  ++ skipn (offset_of units (Point_.traverse start deletion_extent)) units.

#[global] Instance text_ops : TextOps Text TextSlice :=
  {| Text_empty := [];
     Text_size := size;
     Text_extent := extent;
     Text_at := at_;
     Text_clip_position := clip_position;
     Text_front := fun t => hd 0 t;
     Text_back := fun t => last t 0;
     Text_append := fun t sl => t ++ sl;
     Text_splice := splice;
     TextSlice_of := fun t => t;
     TextSlice_slice := slice;
     TextSlice_prefix := prefix;
     TextSlice_suffix := suffix;
     TextSlice_size := size;
     TextSlice_extent := extent;
     TextSlice_position_for_offset := position_for_offset;
     TextSlice_units := fun sl => sl |}.

(** Modelled from the spec: [Patch] is not part of the translation unit.
    A patch is the list of its changes in position order. *)
Definition Patch : Type := list (Change Text).

(** Modelled from the spec: the change located for a position in the
    patched text. The source handles a located change that ends at or
    before the position (the [position >= new_end] branches of
    [character_at_] and [clip_position_]), and the line lengths the
    buffer documents after an edit need those branches, so the located
    change is the last one that starts at or before the position. *)
Definition find_change_for_new_position (p : Patch) (position : Point)
    : option (Change Text) :=
  find (fun c => Point_.leb (new_start c) position) (rev p).

(** Modelled from the spec: the same change, located by the lookup the
    top layer uses. *)
Definition change_for_new_position (p : Patch) (position : Point)
    : option (Change Text) :=
  find (fun c => Point_.leb (new_start c) position) (rev p).

(** Modelled from the spec: the next change whose [new_end] is after the
    position. *)
Definition find_change_ending_after_new_position (p : Patch)
    (position : Point) : option (Change Text) :=
  find (fun c => Point_.ltb position (new_end c)) p.

(** The point of the parent text that a point of the patched text stands
    for, when the point lies at or after the end of change [c] and before
    the next change. *)
Definition old_position_after (c : option (Change Text)) (position : Point)
    : Point :=
  match c with
  | None => position
  | Some c =>
      Point_.traverse (old_end c) (Point_.traversal position (new_end c))
  end.

(** The longest prefix of a patch whose changes pass [f], and the rest. *)
Fixpoint split_while (f : Change Text -> bool) (p : Patch) : Patch * Patch :=
  match p with
  | [] => ([], [])
  | c :: rest =>
      if f c then (c :: fst (split_while f rest), snd (split_while f rest))
      else ([], p)
  end.

(** The changes with their [preceding_old_text_size] and
    [preceding_new_text_size] counted again, from [o] and [n] on. *)
Fixpoint renumber (o n : Z) (p : Patch) : Patch :=
  match p with
  | [] => []
  | c :: rest =>
      mkChange (old_start c) (old_end c) (new_start c) (new_end c)
        (old_text_size c) (new_text c) o n
      :: renumber (o + old_text_size c) (n + size (new_text c)) rest
  end.

(** A change after an edit: its new range moves with the text behind the
    edit. *)
Definition shift_change (deletion_end insertion_end : Point)
    (c : Change Text) : Change Text :=
  mkChange (old_start c) (old_end c)
    (Point_.traverse insertion_end
       (Point_.traversal (new_start c) deletion_end))
    (Point_.traverse insertion_end
       (Point_.traversal (new_end c) deletion_end))
    (old_text_size c) (new_text c)
    (preceding_old_text_size c) (preceding_new_text_size c).

Definition sum_old_text_size (p : Patch) : Z :=
  fold_right (fun c n => old_text_size c + n) 0 p.

Definition sum_new_text_size (p : Patch) : Z :=
  fold_right (fun c n => size (new_text c) + n) 0 p.

(** Modelled from the spec: [splice] records an edit, given in the
    coordinates of the patched text. The changes that end before the
    start of the edit stay; the changes it overlaps or touches are merged
    with it into one change, which keeps what is left of their inserted
    texts on either side, so that no two changes of a patch are adjacent;
    the changes behind it move. *)
Definition splice_patch (p : Patch) (start old_extent new_extent : Point)
    (old_text : option Text) (inserted : Text) (deleted_text_size : Z)
    : Patch :=
  let deletion_end := Point_.traverse start old_extent in
  let insertion_end := Point_.traverse start new_extent in
  let before := fst (split_while (fun c => Point_.ltb (new_end c) start) p) in
  let rest := snd (split_while (fun c => Point_.ltb (new_end c) start) p) in
  let touched :=
    fst (split_while (fun c => Point_.leb (new_start c) deletion_end) rest) in
  let after :=
    snd (split_while (fun c => Point_.leb (new_start c) deletion_end) rest) in
  let lower := match rev before with [] => None | c :: _ => Some c end in
  let merged :=
    match touched with
    | [] =>
        mkChange (old_position_after lower start)
          (Point_.traverse (old_position_after lower start) old_extent)
          start insertion_end deleted_text_size inserted 0 0
    | first :: _ =>
        let last_ := last touched first in
        let text_prefix :=
          if Point_.ltb (new_start first) start then
            prefix (new_text first) (Point_.traversal start (new_start first))
          else [] in
        let text_suffix :=
          if Point_.ltb deletion_end (new_end last_) then
            suffix (new_text last_)
              (Point_.traversal deletion_end (new_start last_))
          else [] in
        mkChange
          (if Point_.leb (new_start first) start then old_start first
           else old_position_after lower start)
          (if Point_.leb deletion_end (new_end last_) then old_end last_
           else old_position_after (Some last_) deletion_end)
          (if Point_.leb (new_start first) start then new_start first
           else start)
          (if Point_.ltb deletion_end (new_end last_) then
             Point_.traverse insertion_end
               (Point_.traversal (new_end last_) deletion_end)
           else insertion_end)
          (sum_old_text_size touched + deleted_text_size
           - (sum_new_text_size touched - size text_prefix - size text_suffix))
          (text_prefix ++ inserted ++ text_suffix)
          0 0
    end in
  renumber 0 0
    (before ++ merged :: map (shift_change deletion_end insertion_end) after).

(** Modelled from the spec: [combine] merges the other patch into this
    one in the given orientation: the changes of the other patch are
    replayed as edits of this one, first to last at their new positions
    when [left_to_right], last to first at their old positions
    otherwise. *)
Definition replay (use_new : bool) (p : Patch) (c : Change Text) : Patch :=
  splice_patch p (if use_new then new_start c else old_start c)
    (Point_.traversal (old_end c) (old_start c))
    (Point_.traversal (new_end c) (new_start c))
    None (new_text c) (old_text_size c).

Definition combine (p q : Patch) (left_to_right : bool) : Patch :=
  if left_to_right then fold_left (replay true) q p
  else fold_left (replay false) (rev q) p.

(** Modelled from the spec: the serialized stream, as the sequence of the
    values appended to it. *)
Inductive Token : Type :=
| TPatch (p : Patch)
| TU32 (z : Z)
| TPoint (p : Point).

Definition Serializer : Type := list Token.
Definition Deserializer : Type := list Token.

#[global] Instance patch_ops : PatchOps Text Patch Serializer Deserializer :=
  {| Patch_new := [];
     Patch_splice := splice_patch;
     Patch_find_change_for_new_position := find_change_for_new_position;
     Patch_change_for_new_position := change_for_new_position;
     Patch_find_change_ending_after_new_position :=
       find_change_ending_after_new_position;
     Patch_get_changes := fun p => p;
     Patch_get_change_count := fun p => Z.of_nat (length p);
     Patch_clear := fun _ => [];
     Patch_combine := combine;
     Patch_serialize := fun p s => s ++ [TPatch p];
     Patch_deserialize := fun d =>
       match d with TPatch p :: d' => (p, d') | _ => ([], d) end;
     Serializer_append_u32 := fun s z => s ++ [TU32 z];
     Point_serialize := fun p s => s ++ [TPoint p];
     Deserializer_read_u32 := fun d =>
       match d with TU32 z :: d' => (z, d') | _ => (0, d) end;
     Point_deserialize := fun d =>
       match d with TPoint p :: d' => (p, d') | _ => (mkPoint 0 0, d) end |}.

(** Texts in the examples: a b c \n \r B d e f *)
Definition abc : Text := [97; 98; 99].
Definition BB : Text := [66; 66].

Definition Buffer : Type := @TextBuffer Text Patch.
Definition new (t : Text) : Buffer := TextBuffer_new t.


End ListModel.

(** ** Concrete runs *)

Module Scenarios.

Import ListModel.

(** "abc\r\ndef" *)
Definition abc_crlf_def : Text := [97; 98; 99; 13; 10; 100; 101; 102].

(** "abc\ndef" with [(0,1)..(0,2)] replaced by "BB" *)
Definition edited : Buffer :=
  set_text_in_range (new [97; 98; 99; 10; 100; 101; 102])
    (mkRange (mkPoint 0 1) (mkPoint 0 2)) BB.

(** "a\r" with "\n" inserted at its end *)
Definition cr_then_lf : Buffer :=
  set_text_in_range (new [97; 13]) (mkRange (mkPoint 0 2) (mkPoint 0 2)) [10].

(** Two snapshots with an edit after each: three layers, the lower two
    pinned. *)
Definition two_snapshots : option (Buffer * Snapshot * Snapshot) :=
  match create_snapshot (new abc) with
  | None => None
  | Some (b1, s1) =>
      match
        create_snapshot
          (set_text_in_range b1 (mkRange (mkPoint 0 1) (mkPoint 0 2)) BB)
      with
      | None => None
      | Some (b2, s2) =>
          Some (set_text_in_range b2
                  (mkRange (mkPoint 0 4) (mkPoint 0 4)) [100],
                s1, s2)
      end
  end.

(** The same buffer once the older snapshot has been destroyed: the
    younger snapshot is the last pin. *)
Definition one_pin_left : option (Buffer * Snapshot) :=
  match two_snapshots with
  | None => None
  | Some (b, s1, s2) =>
      match Snapshot_destroy b s1 with
      | None => None
      | Some b' => Some (b', s2)
      end
  end.

(** A first layer that is the top layer and carries a pin. *)
Definition pinned_first : Buffer :=
  {| base_text := abc;
     top_layer := set_snapshot_count (Layer_of_text abc) 1;
     lower := [] |}.

(** A high surrogate ending one chunk, a low surrogate starting the
    next. *)
Definition split_pair : Iterator.t :=
  {| Iterator.chunks := [[97; 55357]; [56833; 98]];
     Iterator.chunk_index := 0;
     Iterator.chunk_begin := 0;
     Iterator.chunk_end := 2;
     Iterator.chunk_iterator := 1 |}.

(** The buffer and the snapshot of [one_pin_left], and the states the
    destructor goes through on them. *)
Definition last_pin_buffer : Buffer :=
  Eval vm_compute in
    match one_pin_left with
    | Some (b, _) => b
    | None => new abc
    end.

Definition last_pin_snapshot : Snapshot := mkSnapshot 1.

Definition last_pin_released : Buffer :=
  Eval vm_compute in
    match release_pin last_pin_buffer last_pin_snapshot with
    | Some (b1, _) => b1
    | None => new abc
    end.

(** The lookup result in [cr_then_lf]: the inserted LF. *)
Definition lf_change : Change Text :=
  mkChange (mkPoint 0 2) (mkPoint 0 2) (mkPoint 0 2) (mkPoint 1 0) 0 [10] 0 0.

(** The lookup result in [edited]: "b" replaced by "BB". *)
Definition BB_change : Change Text :=
  mkChange (mkPoint 0 1) (mkPoint 0 2) (mkPoint 0 1) (mkPoint 0 3) 1 BB 0 0.

(** A buffer whose top layer is an unedited layer over the first layer. *)
Definition unedited_top : Buffer :=
  Eval vm_compute in
    match create_snapshot (new abc) with
    | Some (b, _) => b
    | None => new abc
    end.

Definition xyz : Text := [120; 121; 122].

(** The iterator at the start of a one-chunk text. *)
Definition at_start : Iterator.t :=
  {| Iterator.chunks := [[97; 98]];
     Iterator.chunk_index := 0;
     Iterator.chunk_begin := 0;
     Iterator.chunk_end := 2;
     Iterator.chunk_iterator := 0 |}.

(** The buffer of [two_snapshots], both snapshots alive, and the state the
    destructor of the younger one goes through. *)
Definition both_pinned : Buffer :=
  Eval vm_compute in
    match two_snapshots with
    | Some (b, _, _) => b
    | None => new abc
    end.

Definition younger_released : Buffer :=
  Eval vm_compute in
    match release_pin both_pinned (mkSnapshot 1) with
    | Some (b1, _) => b1
    | None => new abc
    end.

(** "abc" with two snapshots and no edit: one layer pinned twice under an
    unedited top layer. *)
Definition twice_pinned : Buffer :=
  Eval vm_compute in
    match create_snapshot unedited_top with
    | Some (b, _) => b
    | None => new abc
    end.


(** The chunks of [edited]: "a", "BB", "c\ndef". *)
Definition edited_chunks : list TextSlice :=
  [[97]; [66; 66]; [99; 10; 100; 101; 102]].


End Scenarios.

(** * Properties *)

Section Layer_properties.

Context {Text TextSlice Patch Serializer Deserializer : Type}.
Context {TO : TextOps Text TextSlice}.
Context {PO : PatchOps Text Patch Serializer Deserializer}.

Local Abbreviation Layer := (@Layer Patch).
Local Abbreviation Parent := (@Parent TextSlice).

(** Reading a character or clipping through a view of a chain does not
    use the iteration budget of the view. *)
Lemma Layer_view_character_at (fuel : nat) (base_text : Text) (l : Layer)
    (below : list Layer) (position : Point) :
  p_character_at (Layer_view fuel base_text (l :: below)) position
  = Layer_character_at base_text l below position.
Proof.
  unfold Layer_character_at, previous_of. simpl.
  destruct (is_first l); [reflexivity|].
  revert l position. induction below as [|l' below' IH]; intros l position.
  - reflexivity.
  - simpl. unfold character_at_.
    destruct (Patch_find_change_for_new_position (patch l) position) as [c|].
    + destruct (Point_.ltb position (new_end c)); [reflexivity|].
      destruct (is_first l'); [reflexivity|]. apply IH.
    + destruct (is_first l'); [reflexivity|]. apply IH.
Qed.

(** C4. [character_at] on a layer follows three cases, decided by the
    change the patch locates for the position: with no located change it
    is the parent's character at the position; before the located
    change's [new_end] it is the unit of [new_text] at [position -
    new_start]; at or past [new_end] it is the parent's character at
    [old_end.traverse(position - new_end)]. The parent is the base text
    for the first layer and the layer below otherwise. *)
Theorem character_at_three_cases (base_text : Text) (l : Layer)
    (below : list Layer) (position : Point) :
  (Patch_find_change_for_new_position (patch l) position = None ->
   Layer_character_at base_text l below position
   = p_character_at (previous_of O base_text l below) position)
  /\ (forall change,
        Patch_find_change_for_new_position (patch l) position = Some change ->
        Point_.ltb position (new_end change) = true ->
        Layer_character_at base_text l below position
        = Text_at (new_text change)
            (Point_.traversal position (new_start change)))
  /\ (forall change,
        Patch_find_change_for_new_position (patch l) position = Some change ->
        Point_.ltb position (new_end change) = false ->
        Layer_character_at base_text l below position
        = p_character_at (previous_of O base_text l below)
            (Point_.traverse (old_end change)
               (Point_.traversal position (new_end change)))).
Proof.
  unfold Layer_character_at, character_at_.
  repeat split.
  - intros ->. reflexivity.
  - intros change -> ->. reflexivity.
  - intros change -> ->. reflexivity.
Qed.

(** The parent of C4, spelled out. *)
Lemma previous_of_character_at (base_text : Text) (l : Layer)
    (below : list Layer) (position : Point) :
  p_character_at (previous_of O base_text l below) position
  = if is_first l then Text_at base_text position
    else match below with
         | [] => Text_at base_text position
         | l' :: below' => Layer_character_at base_text l' below' position
         end.
Proof.
  unfold previous_of. destruct (is_first l); [reflexivity|].
  destruct below as [|l' below']; [reflexivity|].
  apply Layer_view_character_at.
Qed.

(** C5. In [clip_position], when the located change contains the
    position ([position < new_end]), the position clips to offset 0 of
    the inserted text, the change starts at a column above 0, the
    inserted text starts with LF and the parent's character just before
    [old_start] is CR, the result is [previous_column(new_start)] with
    the change's current offset minus one. *)
Theorem clip_position_crlf_stitch_at_insertion_start (base_text : Text)
    (l : Layer) (below : list Layer) (position : Point)
    (change : Change Text) :
  (if is_last l then Patch_change_for_new_position (patch l) position
   else Patch_find_change_for_new_position (patch l) position) = Some change ->
  Point_.ltb position (new_end change) = true ->
  c_offset (Text_clip_position (new_text change)
              (Point_.traversal position (new_start change))) = 0 ->
  0 < column (old_start change) ->
  Text_front (new_text change) = LF ->
  p_character_at (previous_of O base_text l below)
    (previous_column (old_start change)) = CR ->
  Layer_clip_position base_text l below position
  = mkClip (previous_column (new_start change))
      (u32 (u32 (c_offset (p_clip_position (previous_of O base_text l below)
                             (old_start change))
                 + preceding_new_text_size change
                 - preceding_old_text_size change)
            - 1)).
Proof.
  intros Hfind Hlt Hoff Hcol Hfront Hcr.
  unfold Layer_clip_position, clip_position_.
  rewrite Hfind, Hlt, Hoff, Hfront, Hcr.
  replace (0 <? column (old_start change)) with true
    by (symmetry; apply Z.ltb_lt; exact Hcol).
  reflexivity.
Qed.

End Layer_properties.

Section Buffer_properties.

Context {Text TextSlice Patch Serializer Deserializer : Type}.
Context {TO : TextOps Text TextSlice}.
Context {PO : PatchOps Text Patch Serializer Deserializer}.

Local Abbreviation Layer := (@Layer Patch).
Local Abbreviation TextBuffer := (@TextBuffer Text Patch).

(** C7. When the top layer is not the first layer, [reset_base_text],
    [flush_outstanding_changes], [serialize_outstanding_changes] and
    [deserialize_outstanding_changes] return [false] and give back the
    buffer (and the stream) they were given; so does
    [deserialize_outstanding_changes] when the top layer's patch holds a
    change. *)
Theorem precondition_violations_return_false_without_mutation
    (b : TextBuffer) (new_base_text : Text) (serializer : Serializer)
    (deserializer : Deserializer) :
  (is_first (top_layer b) = false ->
   reset_base_text b new_base_text = (false, b)
   /\ flush_outstanding_changes b = (false, b)
   /\ serialize_outstanding_changes b serializer = (false, b, serializer)
   /\ deserialize_outstanding_changes b deserializer = (false, b, deserializer))
  /\ (0 < Patch_get_change_count (patch (top_layer b)) ->
      deserialize_outstanding_changes b deserializer = (false, b, deserializer)).
Proof.
  split.
  - intros Hfirst.
    unfold reset_base_text, flush_outstanding_changes,
      serialize_outstanding_changes, deserialize_outstanding_changes.
    rewrite Hfirst. simpl. repeat split; reflexivity.
  - intros Hcount. unfold deserialize_outstanding_changes.
    apply Z.ltb_lt in Hcount. rewrite Hcount, orb_true_r. reflexivity.
Qed.

(** The buffer's reads after a refused call are those before it. *)
Corollary refused_reset_keeps_text (fuel : nat) (b : TextBuffer)
    (new_base_text : Text) :
  is_first (top_layer b) = false ->
  text fuel (snd (reset_base_text b new_base_text)) = text fuel b.
Proof.
  intros Hfirst. unfold reset_base_text. rewrite Hfirst. reflexivity.
Qed.

(** *** Coalescence *)

Lemma collect_layers_to_remove_chain (top : Layer) (below : list Layer)
    (removed : list Layer) (l : Layer) (rest : list Layer) :
  collect_layers_to_remove top below = Some (removed, l, rest) ->
  top :: below = removed ++ l :: rest.
Proof.
  revert top removed l rest.
  induction below as [|p below' IH]; intros top removed l rest; simpl.
  - destruct (is_first top); [|discriminate].
    intros H; inversion H; reflexivity.
  - destruct (is_first top).
    + intros H; inversion H; reflexivity.
    + destruct (snapshot_count p =? 0).
      * destruct (collect_layers_to_remove p below') as [[[rm l'] rest']|] eqn:E;
          [|discriminate].
        intros H; inversion H; subst.
        simpl. f_equal. apply IH. exact E.
      * intros H; inversion H; reflexivity.
Qed.

(** The layer the walk stops at carries no pin when the walk started from
    a layer without one. *)
Lemma collect_layers_to_remove_unpinned (top : Layer) (below : list Layer)
    (removed : list Layer) (l : Layer) (rest : list Layer) :
  collect_layers_to_remove top below = Some (removed, l, rest) ->
  snapshot_count top = 0 ->
  snapshot_count l = 0.
Proof.
  revert top removed l rest.
  induction below as [|p below' IH]; intros top removed l rest; simpl.
  - destruct (is_first top); [|discriminate].
    intros H; inversion H; subst; auto.
  - destruct (is_first top).
    + intros H; inversion H; subst; auto.
    + destruct (snapshot_count p =? 0) eqn:Ep.
      * destruct (collect_layers_to_remove p below') as [[[rm l'] rest']|] eqn:E;
          [|discriminate].
        intros H _; inversion H; subst.
        apply (IH _ _ _ _ E). apply Z.eqb_eq. exact Ep.
      * intros H; inversion H; subst; auto.
Qed.

Lemma combine_calls_layers (iter : list Layer) (left_to_right : bool) :
  map fst (combine_calls iter left_to_right) = iter.
Proof.
  revert left_to_right.
  induction iter as [|l iter IH]; intros d; simpl; [reflexivity|].
  f_equal. apply IH.
Qed.

Lemma combine_calls_flags (iter : list Layer) (left_to_right : bool)
    (k : nat) (d : bool) :
  nth_error (map snd (combine_calls iter left_to_right)) k = Some d ->
  d = if Nat.even k then left_to_right else negb left_to_right.
Proof.
  revert left_to_right k.
  induction iter as [|l iter IH]; intros ltr k; simpl.
  - destruct k; discriminate.
  - destruct k as [|k]; simpl.
    + intros H; inversion H; reflexivity.
    + intros H. apply IH in H. rewrite H.
      destruct k as [|k]; [reflexivity|].
      change (Nat.even (S (S k))) with (Nat.even k).
      rewrite Nat.even_succ, <- Nat.negb_even.
      destruct (Nat.even k), ltr; reflexivity.
Qed.

(** C1, as the code has it. When the last snapshot pinning a layer is
    destroyed ([release_pin] brings the count to 0) and the top layer
    carries no pin, the chain is [removed ++ L :: rest], where [removed]
    are the layers above the surviving layer [L], top first. They are
    folded into [L] one [Patch::combine] call each, in the reverse of that
    order: the layer directly above [L] first, the former top layer last.
    The first call is left-to-right and the orientation alternates from
    call to call. The folded layers are gone from the chain, which is
    [L] with the combined patch and the top layer's cached size and
    extent, over [rest]. *)
Theorem coalescence_folds_from_the_layer_above (b : TextBuffer)
    (s : Snapshot) (b1 : TextBuffer) (removed : list Layer) (L : Layer)
    (rest : list Layer) :
  release_pin b s = Some (b1, 0) ->
  snapshot_count (top_layer b1) = 0 ->
  collect_layers_to_remove (top_layer b1) (lower b1) = Some (removed, L, rest) ->
  exists b' calls,
    Snapshot_destroy_calls b s = Some (b', calls)
    /\ layers b1 = removed ++ L :: rest
    /\ map fst calls = rev removed
    /\ (forall k d, nth_error (map snd calls) k = Some d -> d = Nat.even k)
    /\ patch (top_layer b') = run_combine_calls (patch L) calls
    /\ lower b' = rest
    /\ base_text b' = base_text b1
    /\ size_ (top_layer b') = size_ (top_layer b1)
    /\ extent_ (top_layer b') = extent_ (top_layer b1)
    /\ is_last (top_layer b') = true.
Proof.
  intros Hrel Htop Hcol.
  unfold Snapshot_destroy_calls, coalesce.
  rewrite Hrel, Htop, Hcol. simpl.
  eexists; eexists. split; [reflexivity|].
  split; [apply collect_layers_to_remove_chain; exact Hcol|].
  split; [apply combine_calls_layers|].
  split.
  - intros k d H. apply combine_calls_flags in H.
    destruct (Nat.even k); subst; reflexivity.
  - simpl. repeat split; reflexivity.
Qed.

(** *** Points *)

Lemma Point_ltb_irrefl (p : Point) : Point_.ltb p p = false.
Proof.
  unfold Point_.ltb. rewrite !Z.ltb_irrefl, andb_false_r. reflexivity.
Qed.

Lemma u32_small (z : Z) : 0 <= z < 4294967296 -> u32 z = z.
Proof. intros H. unfold u32. apply Z.mod_small. exact H. Qed.

Lemma Point_traverse_traversal (a b : Point) :
  Point_valid a -> Point_valid b -> Point_.ltb a b = true ->
  Point_.traverse a (Point_.traversal b a) = b.
Proof.
  intros [Hra Hca] [Hrb Hcb] Hlt.
  unfold Point_.ltb in Hlt. unfold Point_.traverse, Point_.traversal.
  destruct b as [rb cb], a as [ra ca]; simpl in *.
  destruct (rb =? ra) eqn:Er.
  - apply Z.eqb_eq in Er. subst rb. simpl.
    rewrite Z.ltb_irrefl, Z.eqb_refl in Hlt. simpl in Hlt.
    apply Z.ltb_lt in Hlt.
    f_equal. rewrite (u32_small (z := cb - ca)) by lia.
    rewrite u32_small by lia. lia.
  - apply Z.eqb_neq in Er. simpl.
    assert (Hlt' : ra < rb).
    { apply orb_true_iff in Hlt. destruct Hlt as [H|H].
      - apply Z.ltb_lt in H. exact H.
      - apply andb_true_iff in H. destruct H as [H _].
        apply Z.eqb_eq in H. lia. }
    rewrite (u32_small (z := rb - ra)) by lia.
    replace (rb - ra =? 0) with false by (symmetry; apply Z.eqb_neq; lia).
    f_equal. rewrite u32_small by lia. lia.
Qed.

(** *** Resetting the base text *)

Lemma find_layer_top (top : Layer) (below : list Layer) :
  find_layer (length below) (top :: below) = Some (top, below).
Proof. simpl. rewrite Nat.eqb_refl. reflexivity. Qed.

(** A first layer whose patch locates nothing reads the base text in one
    chunk. *)
Lemma first_layer_text_in_range (fuel : nat) (t : Text) (l : Layer)
    (below : list Layer) :
  is_first l = true ->
  locates_nothing (patch l) ->
  extent_ l = Text_extent t ->
  Layer_text_in_range (S fuel) t l below (mkRange (mkPoint 0 0) (extent_ l))
  = Some (read_of_base_text t).
Proof.
  intros Hfirst Hnone Hext.
  unfold Layer_text_in_range, Layer_for_each_chunk_in_range,
    for_each_chunk_in_range_, previous_of, read_of_base_text.
  rewrite Hfirst. simpl range_start. simpl range_end.
  assert (Hclip : forall p,
            clip_position_ l (BaseLayer t) p = Text_clip_position t p).
  { intros p. unfold clip_position_.
    destruct (Hnone p) as [H1 [H2 _]].
    rewrite H1, H2. destruct (is_last l); reflexivity. }
  rewrite !Hclip, Hext.
  destruct (Hnone (c_position (Text_clip_position t (mkPoint 0 0))))
    as [_ [Hfind Hafter]].
  rewrite Hfind.
  set (start := c_position (Text_clip_position t (mkPoint 0 0))) in *.
  set (goal := c_position (Text_clip_position t (Text_extent t))).
  simpl for_each_chunk_loop.
  destruct (Point_.ltb start goal) eqn:Hlt; simpl.
  - unfold for_each_chunk_gap. rewrite Hafter. simpl.
    destruct fuel; simpl; rewrite Point_ltb_irrefl; reflexivity.
  - reflexivity.
Qed.

(** C8. [reset_base_text] succeeds whenever the top layer is the first
    layer, whatever its [snapshot_count]: it returns [true], installs the
    new base text and keeps the count. A snapshot that pins that layer then
    reads the new base text: its size and extent are those of the new text,
    and (the cleared patch locating nothing) its text is the new base text
    read in one chunk. *)
Theorem reset_base_text_ignores_pins (fuel : nat) (b : TextBuffer)
    (new_base_text : Text) (s : Snapshot) :
  is_first (top_layer b) = true ->
  layer s = length (lower b) ->
  locates_nothing (Patch_clear (patch (top_layer b))) ->
  fst (reset_base_text b new_base_text) = true
  /\ base_text (snd (reset_base_text b new_base_text)) = new_base_text
  /\ snapshot_count (top_layer (snd (reset_base_text b new_base_text)))
     = snapshot_count (top_layer b)
  /\ Snapshot_size (snd (reset_base_text b new_base_text)) s
     = Some (Text_size new_base_text)
  /\ Snapshot_extent (snd (reset_base_text b new_base_text)) s
     = Some (Text_extent new_base_text)
  /\ Snapshot_text (S fuel) (snd (reset_base_text b new_base_text)) s
     = Some (read_of_base_text new_base_text).
Proof.
  intros Hfirst Hs Hclear.
  unfold reset_base_text. rewrite Hfirst. simpl.
  unfold Snapshot_size, Snapshot_extent, Snapshot_text, layers. simpl lower.
  simpl top_layer. rewrite Hs, find_layer_top.
  repeat split; try reflexivity.
  apply first_layer_text_in_range; [exact Hfirst|exact Hclear|reflexivity].
Qed.

(** *** Snapshots and later edits *)

(** Reads through a view do not depend on the iteration budget of the
    view, chunk iteration apart. *)
Lemma clip_position__ext (l : Layer) (v v' : @Parent TextSlice) :
  (forall p, p_clip_position v p = p_clip_position v' p) ->
  (forall p, p_character_at v p = p_character_at v' p) ->
  p_size v = p_size v' ->
  forall p, clip_position_ l v p = clip_position_ l v' p.
Proof.
  intros Hc Ha Hs p. unfold clip_position_.
  destruct (if is_last l then Patch_change_for_new_position (patch l) p
            else Patch_find_change_for_new_position (patch l) p) as [c|];
    [|apply Hc].
  rewrite !Hc, !Ha, Hs. reflexivity.
Qed.

Lemma character_at__ext (l : Layer) (v v' : @Parent TextSlice) :
  (forall p, p_character_at v p = p_character_at v' p) ->
  forall p, character_at_ l v p = character_at_ l v' p.
Proof.
  intros Ha p. unfold character_at_.
  destruct (Patch_find_change_for_new_position (patch l) p) as [c|];
    [|apply Ha].
  rewrite !Ha. reflexivity.
Qed.

Lemma Layer_view_fuel (fuel fuel' : nat) (base_text : Text)
    (chain : list Layer) :
  (forall p, p_clip_position (Layer_view fuel base_text chain) p
             = p_clip_position (Layer_view fuel' base_text chain) p)
  /\ (forall p, p_character_at (Layer_view fuel base_text chain) p
                = p_character_at (Layer_view fuel' base_text chain) p)
  /\ p_size (Layer_view fuel base_text chain)
     = p_size (Layer_view fuel' base_text chain).
Proof.
  induction chain as [|l below IH]; simpl.
  - repeat split; reflexivity.
  - destruct IH as [IHc [IHa IHs]].
    destruct (is_first l).
    + repeat split; reflexivity.
    + repeat split.
      * intros p. apply clip_position__ext; assumption.
      * intros p. apply character_at__ext; assumption.
Qed.

(** The layers under the top layer, and a snapshot that pins one of them,
    are out of reach of an edit. *)
Lemma find_layer_below_top (h : nat) (top : Layer) (below : list Layer) :
  (h < length below)%nat ->
  find_layer h (top :: below) = find_layer h below.
Proof.
  intros H. simpl.
  replace (Nat.eqb (length below) h) with false; [reflexivity|].
  symmetry. apply Nat.eqb_neq. lia.
Qed.

Lemma apply_edit_frame (b : TextBuffer) (e : Edit) :
  base_text (apply_edit b e) = base_text b
  /\ lower (apply_edit b e) = lower b.
Proof. destruct e; split; reflexivity. Qed.

Lemma apply_edits_frame (es : list Edit) (b : TextBuffer) :
  base_text (apply_edits b es) = base_text b
  /\ lower (apply_edits b es) = lower b.
Proof.
  revert b. induction es as [|e es IH]; intros b; simpl.
  - split; reflexivity.
  - destruct (IH (apply_edit b e)) as [H1 H2].
    destruct (apply_edit_frame b e) as [H3 H4].
    unfold apply_edits in *. simpl. rewrite H1, H2, H3, H4. split; reflexivity.
Qed.


(** [create_snapshot] pins a layer under the top layer. *)
Lemma create_snapshot_pins_below_top (b b1 : TextBuffer) (s : Snapshot) :
  create_snapshot b = Some (b1, s) ->
  (layer s < length (lower b1))%nat.
Proof.
  unfold create_snapshot.
  destruct (negb (is_first (top_layer b))
            && (Patch_get_change_count (patch (top_layer b)) =? 0)).
  - destruct (lower b) as [|p below]; [discriminate|].
    intros H; inversion H; subst; simpl. lia.
  - intros H; inversion H; subst; simpl. lia.
Qed.

(** A layer that stops being the top layer reads as before where the two
    lookups agree. *)
Lemma clip_position__not_last (top : Layer) (n : Z) (v : @Parent TextSlice)
    (p : Point) :
  lookups_agree top p ->
  clip_position_ (set_snapshot_count (set_is_last top false) n) v p
  = clip_position_ top v p.
Proof.
  intros H. unfold lookups_agree in H. unfold clip_position_. simpl.
  destruct (is_last top); [rewrite H|]; reflexivity.
Qed.

Lemma pinned_top_text (fuel : nat) (base : Text) (top : Layer) (n : Z)
    (below : list Layer) :
  lookups_agree top (mkPoint 0 0) ->
  lookups_agree top (extent_ top) ->
  Layer_text_in_range fuel base
    (set_snapshot_count (set_is_last top false) n) below
    (mkRange (mkPoint 0 0) (extent_ top))
  = Layer_text_in_range fuel base top below
      (mkRange Point_.zero (extent_ top)).
Proof.
  intros H0 He.
  unfold Layer_text_in_range, Layer_for_each_chunk_in_range,
    for_each_chunk_in_range_, previous_of.
  simpl range_start. simpl range_end. unfold Point_.zero.
  rewrite !clip_position__not_last by assumption.
  reflexivity.
Qed.

(** An unedited top layer hands chunk iteration over the whole text to the
    layer below. *)
Lemma pass_through_for_each (S : Type) (fuel : nat) (base : Text)
    (top prev : Layer) (below : list Layer) (cb : Callback S) (st : S) :
  is_first top = false ->
  locates_nothing (patch top) ->
  extent_ top = extent_ prev ->
  clip_stable (Layer_view O base (prev :: below)) (mkPoint 0 0) ->
  clip_stable (Layer_view O base (prev :: below)) (extent_ prev) ->
  Layer_for_each_chunk_in_range fuel base top (prev :: below)
    (mkPoint 0 0) (extent_ top) cb st
  = Layer_for_each_chunk_in_range fuel base prev below
      (mkPoint 0 0) (extent_ prev) cb st.
Proof.
  intros Hfirst Hnone Hext [Hv0 Hs0] [Hve Hse].
  unfold Layer_for_each_chunk_in_range.
  unfold previous_of at 1. rewrite Hfirst.
  assert (Hview : forall p,
            p_clip_position (Layer_view O base (prev :: below)) p
            = clip_position_ prev (previous_of fuel base prev below) p).
  { intros p.
    destruct (Layer_view_fuel O fuel base (prev :: below)) as [Hc _].
    rewrite Hc. reflexivity. }
  set (pv := previous_of fuel base prev below) in *.
  assert (Hv0' : Point_valid (c_position (clip_position_ prev pv (mkPoint 0 0))))
    by (rewrite <- Hview; exact Hv0).
  assert (Hve' : Point_valid (c_position (clip_position_ prev pv (extent_ prev))))
    by (rewrite <- Hview; exact Hve).
  assert (Hs0' : c_position (clip_position_ prev pv
                   (c_position (clip_position_ prev pv (mkPoint 0 0))))
                 = c_position (clip_position_ prev pv (mkPoint 0 0)))
    by (rewrite <- !Hview; exact Hs0).
  assert (Hse' : c_position (clip_position_ prev pv
                   (c_position (clip_position_ prev pv (extent_ prev))))
                 = c_position (clip_position_ prev pv (extent_ prev)))
    by (rewrite <- !Hview; exact Hse).
  clear Hv0 Hve Hs0 Hse Hview.
  set (v := Layer_view fuel base (prev :: below)).
  assert (Hclip : forall p, clip_position_ top v p = clip_position_ prev pv p).
  { intros p. unfold clip_position_ at 1.
    destruct (Hnone p) as [H1 [H2 _]]. rewrite H1, H2.
    destruct (is_last top); reflexivity. }
  unfold for_each_chunk_in_range_ at 1.
  rewrite !Hclip, Hext.
  unfold for_each_chunk_in_range_.
  set (goal := c_position (clip_position_ prev pv (extent_ prev))) in *.
  set (current := c_position (clip_position_ prev pv (mkPoint 0 0))) in *.
  destruct (Hnone current) as [_ [Hfind Hafter]]. rewrite Hfind.
  destruct (Point_.ltb current goal) eqn:Hlt.
  - destruct fuel as [|n].
    + simpl. rewrite Hlt. reflexivity.
    + set (R := for_each_chunk_loop (Datatypes.S n) (patch prev) pv goal cb
                  (Patch_find_change_for_new_position (patch prev) current)
                  current current st).
      cbn [for_each_chunk_loop]. rewrite Hlt. cbn [negb].
      unfold for_each_chunk_gap.
      rewrite Hafter. cbn [fst snd].
      rewrite (Point_traverse_traversal Hv0' Hve' Hlt).
      change (p_for_each_chunk_in_range v current goal cb st)
        with (for_each_chunk_in_range_ (Datatypes.S n) prev pv current goal cb st).
      unfold for_each_chunk_in_range_.
      rewrite Hs0', Hse'. fold R.
      destruct R as [[[|] st']|]; try reflexivity.
      destruct n; simpl; rewrite Point_ltb_irrefl; reflexivity.
  - destruct fuel; simpl; rewrite Hlt; reflexivity.
Qed.


(** *** Chunk iteration and its callbacks *)

Lemma run_callback_app (S : Type) (callback : Callback S)
    (cs1 cs2 : list TextSlice) (st : S) :
  run_callback callback (cs1 ++ cs2) st
  = match run_callback callback cs1 st with
    | (true, st') => (true, st')
    | (false, st') => run_callback callback cs2 st'
    end.
Proof.
  revert st. induction cs1 as [|c cs1 IH]; intros st; simpl.
  - reflexivity.
  - destruct (callback c st) as [[|] st']; [reflexivity|apply IH].
Qed.

Lemma BaseLayer_uniform (t : Text) : uniform_iteration (BaseLayer t).
Proof.
  intros start end_ acc stop r H. simpl in H.
  inversion H; subst; clear H.
  eexists [_]. repeat split.
  intros S callback st. simpl.
  destruct (callback _ st) as [[|] st']; reflexivity.
Qed.

Section Loop.

Variable patch : Patch.
Variable previous_layer : @Parent TextSlice.
Variable goal_position : Point.
Hypothesis previous_uniform : uniform_iteration previous_layer.

Lemma for_each_chunk_gap_uniform
    (run : forall S : Type, @Callback TextSlice S -> option (Change Text) ->
                            Point -> Point -> S -> option (bool * S)) :
  uniform_run run ->
  forall current base acc stop r,
    for_each_chunk_gap (run _ push_back_slice) patch previous_layer
      goal_position push_back_slice current base acc = Some (stop, r) ->
    exists cs,
      stop = false /\ r = acc ++ cs
      /\ forall (S : Type) (callback : Callback S) (st : S),
           for_each_chunk_gap (run S callback) patch previous_layer
             goal_position callback current base st
           = Some (run_callback callback cs st).
Proof.
  intros Hrun current base acc stop r. unfold for_each_chunk_gap.
  set (change := Patch_find_change_ending_after_new_position patch current).
  set (next := match change with
               | Some c => _
               | None => _
               end).
  destruct (p_for_each_chunk_in_range previous_layer base (snd next)
              push_back_slice acc) as [[stop1 r1]|] eqn:E; [|discriminate].
  apply previous_uniform in E. destruct E as [cs1 [-> [-> Hcb1]]].
  intros H. apply Hrun in H. destruct H as [cs2 [-> [-> Hcb2]]].
  exists (cs1 ++ cs2). split; [reflexivity|]. split; [symmetry; apply app_assoc|].
  intros S callback st. rewrite Hcb1, run_callback_app.
  destruct (run_callback callback cs1 st) as [[|] st']; [reflexivity|].
  apply Hcb2.
Qed.

Lemma for_each_chunk_loop_uniform (fuel : nat) :
  uniform_run
    (fun S callback =>
       for_each_chunk_loop fuel patch previous_layer goal_position callback).
Proof.
  induction fuel as [|n IH]; intros change current base acc stop r.
  - simpl. destruct (Point_.ltb current goal_position); simpl; [discriminate|].
    intros H; inversion H; subst. exists []. rewrite app_nil_r.
    repeat split.
  - cbn [for_each_chunk_loop].
    destruct (Point_.ltb current goal_position); cbn [negb].
    2:{ intros H; inversion H; subst. exists []. rewrite app_nil_r.
        repeat split. }
    destruct change as [c|].
    + destruct (Point_.ltb current (new_end c)).
      * unfold push_back_slice at 1. cbn beta iota.
        destruct (Point_.ltb goal_position (new_end c)).
        -- intros H; inversion H; subst. eexists [_]. repeat split.
           intros S callback st. simpl.
           destruct (callback _ st) as [[|] st']; reflexivity.
        -- intros H.
           apply (for_each_chunk_gap_uniform IH) in H.
           destruct H as [cs [-> [-> Hcb]]].
           eexists (_ :: cs). split; [reflexivity|].
           split; [rewrite <- app_assoc; reflexivity|].
           intros S callback st. simpl.
           destruct (callback _ st) as [[|] st']; [reflexivity|].
           apply Hcb.
      * intros H. apply (for_each_chunk_gap_uniform IH) in H. exact H.
    + intros H. apply (for_each_chunk_gap_uniform IH) in H. exact H.
Qed.

End Loop.

Lemma Layer_view_uniform (fuel : nat) (base : Text) (chain : list Layer) :
  uniform_iteration (Layer_view fuel base chain).
Proof.
  induction chain as [|l below IH]; simpl.
  - apply BaseLayer_uniform.
  - intros start end_ acc stop r H. cbn [p_for_each_chunk_in_range] in *.
    unfold for_each_chunk_in_range_ in *.
    assert (Hprev : uniform_iteration
              (if is_first l then BaseLayer base else Layer_view fuel base below))
      by (destruct (is_first l); [apply BaseLayer_uniform|exact IH]).
    apply (for_each_chunk_loop_uniform (patch l) _ Hprev) in H.
    exact H.
Qed.

(** *** Offsets past the end *)

Lemma Layer_for_each_uniform (fuel : nat) (base : Text) (l : Layer)
    (below : list Layer) (start end_ : Point) (cs : list TextSlice) :
  Layer_chunks_in_range fuel base l below (mkRange start end_) = Some cs ->
  forall (S : Type) (callback : Callback S) (st : S),
    Layer_for_each_chunk_in_range fuel base l below start end_ callback st
    = Some (run_callback callback cs st).
Proof.
  unfold Layer_chunks_in_range. cbn [range_start range_end].
  destruct (Layer_for_each_chunk_in_range fuel base l below start end_
              push_back_slice []) as [[stop r]|] eqn:E; [|discriminate].
  intros H; inversion H; subst r; clear H.
  change (p_for_each_chunk_in_range (Layer_view fuel base (l :: below))
            start end_ push_back_slice [] = Some (stop, cs)) in E.
  apply Layer_view_uniform in E. destruct E as [cs' [_ [Hcs Hcb]]].
  simpl in Hcs. subst cs'.
  intros S callback st. apply Hcb.
Qed.



(** *** The top layer carries no pin *)

Lemma update_layer_below_top (h : nat) (f : Layer -> Layer) (top : Layer)
    (below : list Layer) :
  (h < length below)%nat ->
  update_layer h f (top :: below) = top :: update_layer h f below.
Proof.
  intros H. simpl.
  replace (Nat.eqb (length below) h) with false; [reflexivity|].
  symmetry. apply Nat.eqb_neq. lia.
Qed.

(** [create_snapshot] pins a layer under the top layer and leaves the top
    layer without a pin. *)
Lemma create_snapshot_top_unpinned (b b1 : TextBuffer) (s : Snapshot) :
  snapshot_count (top_layer b) = 0 ->
  create_snapshot b = Some (b1, s) ->
  snapshot_count (top_layer b1) = 0.
Proof.
  intros H0. unfold create_snapshot.
  destruct (negb (is_first (top_layer b))
            && (Patch_get_change_count (patch (top_layer b)) =? 0)).
  - destruct (lower b) as [|p below]; [discriminate|].
    intros H; inversion H; subst; exact H0.
  - intros H; inversion H; subst; reflexivity.
Qed.

Lemma apply_edits_top_unpinned (es : list Edit) (b : TextBuffer) :
  snapshot_count (top_layer (apply_edits b es)) = snapshot_count (top_layer b).
Proof.
  revert b. induction es as [|e es IH]; intros b; [reflexivity|].
  unfold apply_edits in *. simpl. rewrite IH. destruct e; reflexivity.
Qed.

(** Destroying a snapshot that pins a layer under the top layer leaves the
    top layer, old or new, without a pin. *)
Lemma Snapshot_destroy_top_unpinned (b b' : TextBuffer) (s : Snapshot) :
  snapshot_count (top_layer b) = 0 ->
  (layer s < length (lower b))%nat ->
  Snapshot_destroy b s = Some b' ->
  snapshot_count (top_layer b') = 0.
Proof.
  intros H0 Hs.
  unfold Snapshot_destroy, Snapshot_destroy_calls, release_pin, layers.
  destruct (find_layer (layer s) (top_layer b :: lower b)) as [[l below]|];
    [|discriminate].
  destruct (negb (0 <? snapshot_count l)); [discriminate|].
  rewrite update_layer_below_top by exact Hs. cbn [buffer_of_chain].
  destruct (0 <? u32 (snapshot_count l - 1)).
  - intros H; inversion H; subst; exact H0.
  - cbn [top_layer]. rewrite H0. cbn [Z.ltb Z.compare].
    unfold coalesce. cbn [top_layer lower].
    destruct (collect_layers_to_remove (top_layer b) _)
      as [[[removed L] rest]|] eqn:E; [|discriminate].
    intros H; inversion H; subst. cbn.
    eapply collect_layers_to_remove_unpinned; eassumption.
Qed.

(** *** A buffer just constructed *)

(** With a budget of one iteration [text()] of a buffer just constructed
    ends, and reads the text the buffer was constructed from. *)
Lemma text_of_new_buffer (fuel : nat) (t : Text) :
  locates_nothing (Patch_new (Patch := Patch)) ->
  text (S fuel) (TextBuffer_new t) = Some (read_of_base_text t).
Proof.
  intros H. unfold text, text_in_range, extent, TextBuffer_new. cbn.
  apply (first_layer_text_in_range fuel t (Layer_of_text t) []);
    [reflexivity|exact H|reflexivity].
Qed.

End Buffer_properties.

(** ** A larger iteration budget *)

Section Budget_properties.

Context {Text TextSlice Patch Serializer Deserializer : Type}.
Context {TO : TextOps Text TextSlice}.
Context {PO : PatchOps Text Patch Serializer Deserializer}.

Local Abbreviation Layer := (@Layer Patch).
Local Abbreviation TextBuffer := (@TextBuffer Text Patch).







End Budget_properties.

(** ** The iterator *)

(** C9. Dereferencing the iterator at a high surrogate that is the last
    code unit of its chunk gives the high surrogate itself, whatever the
    chunks after it hold. *)
Theorem deref_high_surrogate_at_chunk_end (it : Iterator.t) (c : Z) :
  Iterator.unit_at it (Iterator.chunk_iterator it) = Some c ->
  Iterator.is_high_surrogate c = true ->
  Iterator.chunk_iterator it + 1 = Iterator.chunk_end it ->
  Iterator.deref it = Some c.
Proof.
  intros Hunit Hhigh Hend. unfold Iterator.deref.
  rewrite Hunit, Hhigh, Hend, Z.eqb_refl. reflexivity.
Qed.

(** C10. Decrementing the iterator at the first code unit of the first
    chunk leaves it as it is. *)
Theorem decr_at_begin_of_first_chunk (it : Iterator.t) :
  Iterator.chunk_index it = 0 ->
  Iterator.chunk_iterator it = Iterator.chunk_begin it ->
  Iterator.decr it = Some it.
Proof.
  intros Hindex Hbegin. unfold Iterator.decr.
  rewrite Hbegin, Z.eqb_refl, Hindex. simpl.
  rewrite Hbegin, Z.eqb_refl. reflexivity.
Qed.

(** * The properties on concrete buffers *)

(** The scenario buffers are reached through the buffer's operations. *)
Lemma last_pin_is_reached :
  Scenarios.one_pin_left
  = Some (Scenarios.last_pin_buffer, Scenarios.last_pin_snapshot).
Proof. vm_compute. reflexivity. Qed.

Lemma character_at_three_cases_witness :
  Layer_character_at (base_text Scenarios.edited)
    (top_layer Scenarios.edited) [] (mkPoint 0 0) = 97
  /\ Layer_character_at (base_text Scenarios.edited)
       (top_layer Scenarios.edited) [] (mkPoint 0 1) = 66
  /\ Layer_character_at (base_text Scenarios.edited)
       (top_layer Scenarios.edited) [] (mkPoint 0 3) = 99.
Proof.
  split; [|split].
  - destruct (character_at_three_cases (base_text Scenarios.edited)
                (top_layer Scenarios.edited) [] (mkPoint 0 0)) as [H _].
    rewrite H; reflexivity.
  - destruct (character_at_three_cases (base_text Scenarios.edited)
                (top_layer Scenarios.edited) [] (mkPoint 0 1)) as [_ [H _]].
    rewrite (H Scenarios.BB_change); reflexivity.
  - destruct (character_at_three_cases (base_text Scenarios.edited)
                (top_layer Scenarios.edited) [] (mkPoint 0 3)) as [_ [_ H]].
    rewrite (H Scenarios.BB_change); reflexivity.
Defined.

Lemma clip_position_crlf_stitch_at_insertion_start_witness :
  Layer_clip_position (base_text Scenarios.cr_then_lf)
    (top_layer Scenarios.cr_then_lf) [] (mkPoint 0 2)
  = mkClip (mkPoint 0 1) 1.
Proof.
  rewrite (@clip_position_crlf_stitch_at_insertion_start _ _ _ _ _ _ _
             (base_text Scenarios.cr_then_lf) (top_layer Scenarios.cr_then_lf)
             [] (mkPoint 0 2) Scenarios.lf_change).
  - reflexivity.
  - reflexivity.
  - reflexivity.
  - reflexivity.
  - simpl. lia.
  - reflexivity.
  - reflexivity.
Defined.

Lemma coalescence_folds_from_the_layer_above_witness :
  exists b' calls,
    Snapshot_destroy_calls Scenarios.last_pin_buffer Scenarios.last_pin_snapshot
    = Some (b', calls)
    /\ map (fun call => extent_ (fst call)) calls = [mkPoint 0 4; mkPoint 0 5]
    /\ map snd calls = [true; false]
    /\ lower b' = [].
Proof.
  destruct
    (coalescence_folds_from_the_layer_above
       Scenarios.last_pin_buffer Scenarios.last_pin_snapshot
       (b1 := Scenarios.last_pin_released)
       (removed := [top_layer Scenarios.last_pin_released;
                    hd (top_layer Scenarios.last_pin_released)
                      (lower Scenarios.last_pin_released)])
       (L := last (lower Scenarios.last_pin_released)
               (top_layer Scenarios.last_pin_released))
       (rest := []))
    as [b' [calls [Hd [_ [Hl [_ [_ [Hr _]]]]]]]].
  - vm_compute. reflexivity.
  - reflexivity.
  - vm_compute. reflexivity.
  - exists b', calls. split; [exact Hd|].
    vm_compute in Hd. inversion Hd; subst. 
    repeat split; reflexivity.
Defined.

(** C1, as stated: on the three-layer buffer whose last pin is released,
    the layers are not folded from the top layer down. *)
Lemma coalescence_not_from_the_top_down :
  ~ folds_from_the_top_down Scenarios.last_pin_buffer
      Scenarios.last_pin_snapshot.
Proof.
  intros H.
  specialize (H Scenarios.last_pin_released
                [top_layer Scenarios.last_pin_released;
                 hd (top_layer Scenarios.last_pin_released)
                   (lower Scenarios.last_pin_released)]
                (last (lower Scenarios.last_pin_released)
                   (top_layer Scenarios.last_pin_released))
                []).
  destruct (Snapshot_destroy_calls Scenarios.last_pin_buffer
              Scenarios.last_pin_snapshot) as [[b' calls]|] eqn:E;
    [|vm_compute in E; discriminate].
  specialize (H b' calls).
  vm_compute in E. inversion E; subst; clear E.
  assert (H' := H eq_refl eq_refl eq_refl). clear H.
  vm_compute in H'. discriminate H'.
Qed.


Lemma precondition_violations_return_false_without_mutation_witness :
  reset_base_text Scenarios.unedited_top Scenarios.xyz
  = (false, Scenarios.unedited_top)
  /\ flush_outstanding_changes Scenarios.unedited_top
     = (false, Scenarios.unedited_top)
  /\ serialize_outstanding_changes Scenarios.unedited_top []
     = (false, Scenarios.unedited_top, [])
  /\ deserialize_outstanding_changes Scenarios.unedited_top
       [ListModel.TPatch []; ListModel.TU32 0; ListModel.TPoint (mkPoint 0 0)]
     = (false, Scenarios.unedited_top,
        [ListModel.TPatch []; ListModel.TU32 0; ListModel.TPoint (mkPoint 0 0)])
  /\ deserialize_outstanding_changes Scenarios.edited
       [ListModel.TPatch []; ListModel.TU32 0; ListModel.TPoint (mkPoint 0 0)]
     = (false, Scenarios.edited,
        [ListModel.TPatch []; ListModel.TU32 0; ListModel.TPoint (mkPoint 0 0)]).
Proof.
  destruct (precondition_violations_return_false_without_mutation
              Scenarios.unedited_top Scenarios.xyz (nil : ListModel.Serializer)
              [ListModel.TPatch []; ListModel.TU32 0;
               ListModel.TPoint (mkPoint 0 0)]) as [H _].
  destruct (H eq_refl) as [H1 [H2 [H3 H4]]].
  destruct (precondition_violations_return_false_without_mutation
              Scenarios.edited Scenarios.xyz (nil : ListModel.Serializer)
              [ListModel.TPatch []; ListModel.TU32 0;
               ListModel.TPoint (mkPoint 0 0)]) as [_ H5].
  split; [exact H1|]. split; [exact H2|]. split; [exact H3|].
  split; [exact H4|]. apply H5. reflexivity.
Defined.

Lemma reset_base_text_ignores_pins_witness :
  snapshot_count (top_layer Scenarios.pinned_first) = 1
  /\ fst (reset_base_text Scenarios.pinned_first Scenarios.xyz) = true
  /\ Snapshot_text 1 (snd (reset_base_text Scenarios.pinned_first Scenarios.xyz))
       (mkSnapshot 0)
     = Some Scenarios.xyz.
Proof.
  split; [reflexivity|].
  destruct (reset_base_text_ignores_pins 0 Scenarios.pinned_first
              Scenarios.xyz (mkSnapshot 0)) as [H1 [_ [_ [_ [_ H2]]]]].
  - reflexivity.
  - reflexivity.
  - intros p. repeat split; reflexivity.
  - split; [exact H1|]. rewrite H2. reflexivity.
Defined.

Lemma deref_high_surrogate_at_chunk_end_witness :
  Iterator.deref Scenarios.split_pair = Some 55357.
Proof.
  apply deref_high_surrogate_at_chunk_end; reflexivity.
Defined.

Lemma decr_at_begin_of_first_chunk_witness :
  Iterator.decr Scenarios.at_start = Some Scenarios.at_start.
Proof.
  apply decr_at_begin_of_first_chunk; reflexivity.
Defined.

(** Within a chunk the pair is combined: the same units in one chunk give
    the code point U+1F601. *)
Example deref_pair_within_a_chunk :
  Iterator.deref
    {| Iterator.chunks := [[97; 55357; 56833; 98]];
       Iterator.chunk_index := 0; Iterator.chunk_begin := 0;
       Iterator.chunk_end := 4; Iterator.chunk_iterator := 1 |}
  = Some 128513.
Proof. reflexivity. Qed.

(** * Offsets and points of a text without changes *)













Lemma traverse_from_zero (p : Point) :
  Point_valid p -> Point_.traverse (mkPoint 0 0) p = p.
Proof.
  intros [Hr Hc]. unfold Point_.traverse. destruct p as [r c]; simpl in *.
  destruct (r =? 0) eqn:E.
  - apply Z.eqb_eq in E. subst r. rewrite u32_small by lia. reflexivity.
  - rewrite u32_small by lia. reflexivity.
Qed.


(** Reads of a buffer that holds a text and no change. *)
Lemma fresh_clip_position (units : list Z) (p : Point) :
  clip_position (ListModel.new units) p = ListModel.clip_position units p.
Proof. reflexivity. Qed.





(** Whatever point an offset is given, no point with [u32] fields clips
    to the offset of that LF. *)
Lemma no_point_clips_inside_crlf (p : Point) :
  Point_valid p ->
  c_offset (clip_position (ListModel.new Scenarios.abc_crlf_def) p) <> 4.
Proof.
  intros [Hr Hc]. rewrite fresh_clip_position.
  destruct p as [r c]. cbn [row column] in *.
  unfold ListModel.clip_position. cbn [row column].
  replace (r <? 0) with false by (symmetry; apply Z.ltb_ge; lia).
  destruct (Z.to_nat r) as [|[|k]] eqn:Er.
  - change (ListModel.row_offset Scenarios.abc_crlf_def 0) with (Some 0%nat).
    cbv beta iota zeta.
    change (Z.of_nat
              (ListModel.line_length (skipn 0 Scenarios.abc_crlf_def)))
      with 3.
    destruct (3 <? c) eqn:E; [vm_compute; intros Hx; discriminate Hx|].
    apply Z.ltb_ge in E.
    assert (H : c = 0 \/ c = 1 \/ c = 2 \/ c = 3) by lia.
    destruct H as [H|[H|[H|H]]]; subst c; vm_compute; intros Hx; discriminate Hx.
  - change (ListModel.row_offset Scenarios.abc_crlf_def 1) with (Some 5%nat).
    cbv beta iota zeta.
    change (Z.of_nat
              (ListModel.line_length (skipn 5 Scenarios.abc_crlf_def)))
      with 3.
    destruct (3 <? c) eqn:E; [vm_compute; intros Hx; discriminate Hx|].
    apply Z.ltb_ge in E.
    assert (H : c = 0 \/ c = 1 \/ c = 2 \/ c = 3) by lia.
    destruct H as [H|[H|[H|H]]]; subst c; vm_compute; intros Hx; discriminate Hx.
  - change (ListModel.row_offset Scenarios.abc_crlf_def (S (S k)))
      with (@None nat).
    cbv beta iota zeta.
    vm_compute. intros Hx; discriminate Hx.
Qed.

(** ** Offsets past the end of the text *)






(** ** The documented scenarios *)

(** "abc\ndef" with "b" replaced by "BB" reads "aBBc\ndef", its first
    row has length 4 and its size is 8. *)
Example scenario_edit :
  text 2 Scenarios.edited = Some [97; 66; 66; 99; 10; 100; 101; 102]
  /\ line_length_for_row Scenarios.edited 0 = 4
  /\ size Scenarios.edited = 8.
Proof. repeat split. Qed.

(** In "abc\r\ndef" the point between CR and LF clips onto the CR. *)
Example scenario_crlf :
  clip_position (ListModel.new Scenarios.abc_crlf_def) (mkPoint 0 4)
  = mkClip (mkPoint 0 3) 3.
Proof. reflexivity. Qed.

(** A snapshot of "abc" keeps reading "abc" after an edit, the buffer
    reads "aBBc", and destroying the snapshot leaves one layer that reads
    "aBBc". *)
Example scenario_snapshot :
  exists b1 s b3,
    create_snapshot (ListModel.new ListModel.abc) = Some (b1, s)
    /\ Snapshot_text 2
         (set_text_in_range b1 (mkRange (mkPoint 0 1) (mkPoint 0 2)) ListModel.BB)
         s = Some ListModel.abc
    /\ text 2
         (set_text_in_range b1 (mkRange (mkPoint 0 1) (mkPoint 0 2)) ListModel.BB)
       = Some [97; 66; 66; 99]
    /\ Snapshot_destroy
         (set_text_in_range b1 (mkRange (mkPoint 0 1) (mkPoint 0 2)) ListModel.BB)
         s = Some b3
    /\ lower b3 = []
    /\ text 2 b3 = Some [97; 66; 66; 99].
Proof.
  do 3 eexists. split; [vm_compute; reflexivity|].
  split; [reflexivity|]. split; [reflexivity|].
  split; [vm_compute; reflexivity|]. split; reflexivity.
Qed.

(** * Further properties *)

(** ** The iterator, unit by unit *)

Lemma land_high_mask (c : Z) :
  Z.land c 56320 = Z.land (c / 1024) 55 * 1024.
Proof.
  change 56320 with (Z.shiftl 55 10).
  change 1024 with (2 ^ 10).
  rewrite <- Z.shiftr_div_pow2, <- Z.shiftl_mul_pow2 by lia.
  apply Z.bits_inj'. intros k Hk.
  rewrite Z.land_spec.
  destruct (Z.ltb_spec k 10) as [Hlt|Hge].
  - rewrite !Z.shiftl_spec_low by lia. apply andb_false_r.
  - rewrite !Z.shiftl_spec by lia. rewrite Z.land_spec, Z.shiftr_spec by lia.
    replace (k - 10 + 10) with k by lia. reflexivity.
Qed.

Lemma is_high_surrogate_cases (c : Z) :
  0 <= c < 65536 ->
  Iterator.is_high_surrogate c
  = ((55296 <=? c) && (c <=? 56319)) || ((63488 <=? c) && (c <=? 64511)).
Proof.
  intros Hc. unfold Iterator.is_high_surrogate.
  rewrite land_high_mask.
  pose proof (Z.div_mod c 1024 ltac:(lia)) as Hdm.
  pose proof (Z.mod_pos_bound c 1024 ltac:(lia)) as Hr.
  assert (Hq : 0 <= c / 1024 < 64).
  { split; [apply Z.div_pos; lia|apply Z.div_lt_upper_bound; lia]. }
  set (q := c / 1024) in *.
  assert (Hall : forallb
            (fun k =>
               Bool.eqb (Z.land (Z.of_nat k) 55 * 1024 =? 55296)
                 ((Z.of_nat k =? 54) || (Z.of_nat k =? 62)))
            (seq 0 64) = true) by (vm_compute; reflexivity).
  rewrite forallb_forall in Hall.
  specialize (Hall (Z.to_nat q)).
  rewrite Z2Nat.id in Hall by lia.
  rewrite (Bool.eqb_prop _ _ (Hall ltac:(apply in_seq; lia))).
  destruct (Z.eqb_spec q 54) as [E1|E1], (Z.eqb_spec q 62) as [E2|E2],
    (Z.leb_spec 55296 c), (Z.leb_spec c 56319),
    (Z.leb_spec 63488 c), (Z.leb_spec c 64511);
    try reflexivity; exfalso; lia.
Qed.

(** X1. On 16-bit code units [is_high_surrogate] holds for the high
    surrogates D800..DBFF and also for F800..FBFF (the mask DC00 leaves bit
    13 out), and for nothing else; no unit is both a high and a low
    surrogate for the two tests. *)
Theorem is_high_surrogate_range (c : Z) :
  0 <= c < 65536 ->
  (Iterator.is_high_surrogate c = true
   <-> 55296 <= c <= 56319 \/ 63488 <= c <= 64511)
  /\ Iterator.is_high_surrogate c && Iterator.is_low_surrogate c = false.
Proof.
  intros Hc. rewrite (is_high_surrogate_cases Hc).
  unfold Iterator.is_low_surrogate.
  destruct (Z.leb_spec 55296 c), (Z.leb_spec c 56319),
    (Z.leb_spec 63488 c), (Z.leb_spec c 64511),
    (Z.leb_spec 56320 c), (Z.leb_spec c 57343); cbn;
    (split; [split; [intros E; try discriminate E; lia
                    |intros E; try reflexivity; exfalso; lia]
            |try reflexivity; exfalso; lia]).
Qed.

Lemma is_high_surrogate_range_witness :
  Iterator.is_high_surrogate 63500 = true
  /\ Iterator.is_high_surrogate 56833 = false.
Proof.
  split.
  - apply (is_high_surrogate_range (c := 63500) ltac:(lia)). lia.
  - destruct (Iterator.is_high_surrogate 56833) eqn:E; [|reflexivity].
    apply (is_high_surrogate_range (c := 56833) ltac:(lia)) in E. lia.
Defined.

Lemma land_shiftl_low (x n : Z) :
  Z.land (Z.shiftl x 10) (Z.land n 1023) = 0.
Proof.
  apply Z.bits_inj'. intros k Hk.
  rewrite Z.bits_0, !Z.land_spec.
  destruct (Z.ltb_spec k 10) as [Hlt|Hge].
  - rewrite Z.shiftl_spec_low by lia. reflexivity.
  - change 1023 with (Z.ones 10). rewrite Z.ones_spec_high by lia.
    rewrite !andb_false_r. reflexivity.
Qed.

(** X2. Dereferencing at a high surrogate D800..DBFF that is followed, in
    the same chunk, by a low surrogate DC00..DFFF gives the code point of
    the pair. *)
Theorem deref_decodes_pair (it : Iterator.t) (hi lo : Z) :
  Iterator.unit_at it (Iterator.chunk_iterator it) = Some hi ->
  Iterator.unit_at it (Iterator.chunk_iterator it + 1) = Some lo ->
  Iterator.chunk_iterator it + 1 <> Iterator.chunk_end it ->
  55296 <= hi <= 56319 ->
  56320 <= lo <= 57343 ->
  Iterator.deref it = Some (Iterator.code_point hi lo).
Proof.
  intros Hhi Hlo Hend Rhi Rlo. unfold Iterator.deref.
  rewrite Hhi, is_high_surrogate_cases by lia.
  replace ((55296 <=? hi) && (hi <=? 56319)) with true
    by (symmetry; apply andb_true_iff; split; apply Z.leb_le; lia).
  cbn [orb].
  replace (Iterator.chunk_iterator it + 1 =? Iterator.chunk_end it) with false
    by (symmetry; apply Z.eqb_neq; exact Hend).
  cbn [negb]. rewrite Hlo. f_equal.
  pose proof (Z.add_lor_land (Z.shiftl (Z.land hi 1023) 10) (Z.land lo 1023))
    as Hadd.
  rewrite land_shiftl_low in Hadd.
  rewrite Z.shiftl_mul_pow2 in Hadd by lia.
  rewrite Z.shiftl_mul_pow2 by lia.
  change 1023 with (Z.ones 10) in *.
  rewrite !Z.land_ones in * by lia.
  unfold Iterator.code_point.
  change (2 ^ 10) with 1024 in *.
  assert (Hh : hi mod 1024 = hi - 55296).
  { replace hi with ((hi - 55296) + 54 * 1024) at 1 by lia.
    rewrite Z.mod_add by lia. apply Z.mod_small. lia. }
  assert (Hl : lo mod 1024 = lo - 56320).
  { replace lo with ((lo - 56320) + 55 * 1024) at 1 by lia.
    rewrite Z.mod_add by lia. apply Z.mod_small. lia. }
  rewrite Hh, Hl in *. lia.
Qed.

Lemma deref_decodes_pair_witness :
  Iterator.deref
    {| Iterator.chunks := [[97; 55357; 56833; 98]];
       Iterator.chunk_index := 0; Iterator.chunk_begin := 0;
       Iterator.chunk_end := 4; Iterator.chunk_iterator := 1 |}
  = Some 128513.
Proof.
  rewrite (@deref_decodes_pair _ 55357 56833) by
    (try reflexivity; simpl; lia).
  reflexivity.
Defined.

Lemma skipn_cons_nth (A : Type) (n : nat) (l : list A) (x : A) (r : list A) :
  skipn n l = x :: r -> nth_error l n = Some x /\ skipn (S n) l = r.
Proof.
  revert l. induction n as [|n IH]; intros l H.
  - destruct l; simpl in H; inversion H; subst. split; reflexivity.
  - destruct l as [|y l]; simpl in H; [discriminate|].
    apply IH in H. exact H.
Qed.

(** Looking for the next chunk that holds a unit: the search ends on the
    first unit of a chunk, or at the end sentinel when every chunk left is
    empty. *)
Lemma advance_chunks_result (cs rest : list (list Z)) (index : Z) :
  0 <= index ->
  rest = skipn (Z.to_nat index) cs ->
  match Iterator.advance_chunks cs rest index with
  | (true, it') =>
      Iterator.on_unit it' /\ Iterator.chunk_iterator it' = 0
      /\ Iterator.chunks it' = cs /\ index <= Iterator.chunk_index it'
  | (false, it') =>
      it' = Iterator.sentinel cs /\ Forall (fun c => c = []) rest
  end.
Proof.
  revert index. induction rest as [|c rest IH]; intros index Hi Hrest; simpl.
  - split; [reflexivity|constructor].
  - symmetry in Hrest. apply skipn_cons_nth in Hrest.
    destruct Hrest as [Hnth Hrest].
    destruct (Z.of_nat (length c) =? 0) eqn:E.
    + specialize (IH (index + 1) ltac:(lia)).
      replace (Z.to_nat (index + 1)) with (S (Z.to_nat index)) in IH by lia.
      specialize (IH (eq_sym Hrest)).
      destruct (Iterator.advance_chunks cs rest (index + 1)) as [[|] it'].
      * destruct IH as [H1 [H2 [H3 H4]]]. repeat split; try assumption. lia.
      * destruct IH as [H1 H2]. split; [exact H1|].
        constructor; [|exact H2].
        apply Z.eqb_eq in E. destruct c; [reflexivity|simpl in E; lia].
    + apply Z.eqb_neq in E. repeat split; try reflexivity; try lia.
      exists c. cbn. unfold Iterator.chunk_at.
      replace (index <? 0) with false by (symmetry; apply Z.ltb_ge; lia).
      repeat split; try assumption; lia.
Qed.

Lemma chunk_at_bounds (cs : list (list Z)) (i : Z) (c : list Z) :
  Iterator.chunk_at cs i = Some c -> 0 <= i < Z.of_nat (length cs).
Proof.
  unfold Iterator.chunk_at. destruct (Z.ltb_spec i 0) as [Hn|Hn]; [discriminate|].
  intros H. assert (Hs : nth_error cs (Z.to_nat i) <> None) by congruence.
  apply nth_error_Some in Hs. lia.
Qed.

Lemma advance_chunk_if_needed_result (it : Iterator.t) (c : list Z) :
  Iterator.chunk_at (Iterator.chunks it) (Iterator.chunk_index it) = Some c ->
  Iterator.chunk_begin it = 0 ->
  Iterator.chunk_end it = Z.of_nat (length c) ->
  0 <= Iterator.chunk_iterator it <= Iterator.chunk_end it ->
  Z.of_nat (length (Iterator.chunks it)) < 4294967296 ->
  match Iterator.advance_chunk_if_needed it with
  | (true, it') =>
      Iterator.on_unit it' /\ Iterator.chunks it' = Iterator.chunks it
  | (false, it') => it' = Iterator.sentinel (Iterator.chunks it)
  end.
Proof.
  intros Hc Hb He Hi Hlen. unfold Iterator.advance_chunk_if_needed.
  pose proof (chunk_at_bounds _ _ Hc) as Hidx.
  destruct (Z.eqb_spec (Iterator.chunk_iterator it) (Iterator.chunk_end it))
    as [E|E].
  - rewrite u32_small by lia.
    pose proof (@advance_chunks_result (Iterator.chunks it)
                  (skipn (Z.to_nat (Iterator.chunk_index it + 1))
                     (Iterator.chunks it))
                  (Iterator.chunk_index it + 1) ltac:(lia) eq_refl) as H.
    destruct (Iterator.advance_chunks _ _ _) as [[|] it'].
    + destruct H as [H1 [_ [H3 _]]]. split; assumption.
    + destruct H as [H1 _]. exact H1.
  - split; [|reflexivity]. exists c. repeat split; try assumption; lia.
Qed.

Lemma on_unit_reads (it : Iterator.t) :
  Iterator.on_unit it ->
  exists u, Iterator.unit_at it (Iterator.chunk_iterator it) = Some u.
Proof.
  intros [c [Hc [Hb [He Hi]]]]. unfold Iterator.unit_at. rewrite Hc.
  replace (Iterator.chunk_iterator it <? 0) with false
    by (symmetry; apply Z.ltb_ge; lia).
  destruct (nth_error c (Z.to_nat (Iterator.chunk_iterator it))) as [u|] eqn:E.
  - exists u. reflexivity.
  - apply nth_error_None in E. lia.
Qed.

(** X3. [operator++] on an iterator that rests on a code unit never fails
    and never stops at the end of a chunk: the result rests on a code unit
    of the same chunks, empty chunks skipped, or is the end sentinel. *)
Theorem incr_rests_on_a_unit_or_ends (it : Iterator.t) :
  Iterator.on_unit it ->
  Z.of_nat (length (Iterator.chunks it)) < 4294967296 ->
  exists it',
    Iterator.incr it = Some it'
    /\ ((Iterator.on_unit it' /\ Iterator.chunks it' = Iterator.chunks it)
        \/ it' = Iterator.sentinel (Iterator.chunks it)).
Proof.
  intros [c [Hc [Hb [He Hi]]]] Hlen. unfold Iterator.incr.
  pose proof (@advance_chunk_if_needed_result
                (Iterator.set_chunk_iterator it (Iterator.chunk_iterator it + 1))
                c Hc Hb He ltac:(cbn; lia) Hlen) as H1.
  destruct (Iterator.advance_chunk_if_needed
              (Iterator.set_chunk_iterator it (Iterator.chunk_iterator it + 1)))
    as [[|] it2].
  - destruct H1 as [Hon Hcs]. cbn in Hcs.
    destruct (on_unit_reads Hon) as [u Hu]. rewrite Hu.
    destruct (Iterator.is_high_surrogate u).
    + destruct Hon as [c2 [Hc2 [Hb2 [He2 Hi2]]]].
      pose proof (@advance_chunk_if_needed_result
                    (Iterator.set_chunk_iterator it2
                       (Iterator.chunk_iterator it2 + 1))
                    c2 Hc2 Hb2 He2 ltac:(cbn; lia)
                    ltac:(cbn; rewrite Hcs; exact Hlen)) as H2.
      destruct (Iterator.advance_chunk_if_needed
                  (Iterator.set_chunk_iterator it2
                     (Iterator.chunk_iterator it2 + 1))) as [[|] it3];
        eexists; (split; [reflexivity|]); cbn [snd].
      * left. destruct H2 as [H2 H3]. cbn in H3. split; [exact H2|congruence].
      * right. cbn in H2. rewrite H2, Hcs. reflexivity.
    + eexists. split; [reflexivity|]. left. split; assumption.
  - eexists. split; [reflexivity|]. right. exact H1.
Qed.

Lemma incr_rests_on_a_unit_or_ends_witness :
  exists it',
    Iterator.incr Scenarios.split_pair = Some it'
    /\ ((Iterator.on_unit it'
         /\ Iterator.chunks it' = Iterator.chunks Scenarios.split_pair)
        \/ it' = Iterator.sentinel (Iterator.chunks Scenarios.split_pair)).
Proof.
  apply incr_rests_on_a_unit_or_ends.
  - exists [97; 55357]. repeat split; cbn; lia.
  - cbn. lia.
Defined.

Lemma advance_chunks_all_empty (cs rest : list (list Z)) (index : Z) :
  Forall (fun c => c = []) rest ->
  Iterator.advance_chunks cs rest index = (false, Iterator.sentinel cs).
Proof.
  intros H. revert index. induction H as [|c rest Hc _ IH]; intros index.
  - reflexivity.
  - subst c. simpl. apply IH.
Qed.

(** X4. [operator++] from the last code unit of a chunk, when every chunk
    after it is empty, gives the end iterator: it compares equal to
    [Iterator()] under [operator==], in both orders. *)
Theorem incr_past_the_last_unit_is_end (it : Iterator.t) :
  Iterator.chunk_iterator it + 1 = Iterator.chunk_end it ->
  Forall (fun c => c = [])
    (skipn (Z.to_nat (u32 (Iterator.chunk_index it + 1))) (Iterator.chunks it)) ->
  exists it',
    Iterator.incr it = Some it'
    /\ Iterator.eqb it' (Iterator.sentinel []) = true
    /\ Iterator.eqb (Iterator.sentinel []) it' = true.
Proof.
  intros Hend Hempty. unfold Iterator.incr, Iterator.advance_chunk_if_needed.
  cbn [Iterator.set_chunk_iterator Iterator.chunk_iterator Iterator.chunk_end
       Iterator.chunk_index Iterator.chunks].
  rewrite Hend, Z.eqb_refl.
  rewrite (advance_chunks_all_empty _ _ Hempty).
  eexists. split; [reflexivity|]. split; reflexivity.
Qed.

Lemma incr_past_the_last_unit_is_end_witness :
  exists it',
    Iterator.incr
      {| Iterator.chunks := [[97; 98]; []; []];
         Iterator.chunk_index := 0; Iterator.chunk_begin := 0;
         Iterator.chunk_end := 2; Iterator.chunk_iterator := 1 |}
    = Some it'
    /\ Iterator.eqb it' (Iterator.sentinel []) = true
    /\ Iterator.eqb (Iterator.sentinel []) it' = true.
Proof.
  apply incr_past_the_last_unit_is_end.
  - reflexivity.
  - cbn. repeat constructor.
Defined.

Lemma unit_at_set_chunk_iterator (it : Iterator.t) (p q : Z) :
  Iterator.unit_at (Iterator.set_chunk_iterator it p) q = Iterator.unit_at it q.
Proof. reflexivity. Qed.

(** X5. [operator++] tests the unit it arrives on, not the unit it leaves:
    when the next unit of the chunk is a high surrogate that is itself
    followed by a unit [lo] of the chunk, the iterator ends two units
    further, on [lo], and a low surrogate [lo] is then dereferenced as
    itself: iterating forward onto a pair does not give its code point. *)
Theorem incr_onto_a_pair_rests_on_its_low_half (it : Iterator.t) (hi lo : Z) :
  Iterator.chunk_iterator it + 1 <> Iterator.chunk_end it ->
  Iterator.chunk_iterator it + 2 <> Iterator.chunk_end it ->
  Iterator.unit_at it (Iterator.chunk_iterator it + 1) = Some hi ->
  Iterator.unit_at it (Iterator.chunk_iterator it + 2) = Some lo ->
  55296 <= hi <= 56319 ->
  56320 <= lo <= 57343 ->
  exists it',
    Iterator.incr it = Some it'
    /\ it' = Iterator.set_chunk_iterator it (Iterator.chunk_iterator it + 2)
    /\ Iterator.deref it' = Some lo.
Proof.
  intros H1 H2 Hhi Hlo Rhi Rlo.
  assert (Hh : Iterator.is_high_surrogate hi = true).
  { rewrite is_high_surrogate_cases by lia.
    apply orb_true_iff. left. apply andb_true_iff.
    split; apply Z.leb_le; lia. }
  assert (Hl : Iterator.is_high_surrogate lo = false).
  { rewrite is_high_surrogate_cases by lia.
    apply orb_false_iff.
    split; apply andb_false_iff; [right|left]; apply Z.leb_gt; lia. }
  unfold Iterator.incr, Iterator.advance_chunk_if_needed.
  cbn [Iterator.set_chunk_iterator Iterator.chunk_iterator Iterator.chunk_end].
  replace (Iterator.chunk_iterator it + 1 =? Iterator.chunk_end it) with false
    by (symmetry; apply Z.eqb_neq; exact H1).
  fold (Iterator.set_chunk_iterator it (Iterator.chunk_iterator it + 1)).
  rewrite unit_at_set_chunk_iterator.
  cbn [Iterator.set_chunk_iterator Iterator.chunk_iterator].
  rewrite Hhi, Hh.
  cbn [Iterator.set_chunk_iterator Iterator.chunk_iterator Iterator.chunk_end
       Iterator.chunks Iterator.chunk_index Iterator.chunk_begin].
  replace (Iterator.chunk_iterator it + 1 + 1) with
    (Iterator.chunk_iterator it + 2) by lia.
  replace (Iterator.chunk_iterator it + 2 =? Iterator.chunk_end it) with false
    by (symmetry; apply Z.eqb_neq; exact H2).
  eexists. split; [reflexivity|]. split; [reflexivity|].
  cbn [snd]. unfold Iterator.deref.
  fold (Iterator.set_chunk_iterator it (Iterator.chunk_iterator it + 2)).
  rewrite !unit_at_set_chunk_iterator.
  cbn [Iterator.set_chunk_iterator Iterator.chunk_iterator].
  rewrite Hlo, Hl. reflexivity.
Qed.

Lemma incr_onto_a_pair_rests_on_its_low_half_witness :
  exists it',
    Iterator.incr
      {| Iterator.chunks := [[97; 98; 55357; 56833; 99; 100]];
         Iterator.chunk_index := 0; Iterator.chunk_begin := 0;
         Iterator.chunk_end := 6; Iterator.chunk_iterator := 1 |}
    = Some it'
    /\ Iterator.chunk_iterator it' = 3
    /\ Iterator.deref it' = Some 56833.
Proof.
  destruct (@incr_onto_a_pair_rests_on_its_low_half
              {| Iterator.chunks := [[97; 98; 55357; 56833; 99; 100]];
                 Iterator.chunk_index := 0; Iterator.chunk_begin := 0;
                 Iterator.chunk_end := 6; Iterator.chunk_iterator := 1 |}
              55357 56833) as [it' [Hi [He Hd]]];
    try (cbn; lia); try reflexivity.
  exists it'. split; [exact Hi|]. split; [rewrite He; reflexivity|exact Hd].
Defined.

(** X6. Within a chunk, [operator--] undoes [operator++] when neither
    step meets a surrogate: the unit stepped onto is not classified as a
    high surrogate, and the unit stepped back to is the first of the chunk
    or is not a low surrogate. *)
Theorem decr_undoes_incr (it : Iterator.t) (next : Z) :
  Iterator.chunk_begin it <= Iterator.chunk_iterator it ->
  Iterator.chunk_iterator it + 1 <> Iterator.chunk_end it ->
  Iterator.unit_at it (Iterator.chunk_iterator it + 1) = Some next ->
  Iterator.is_high_surrogate next = false ->
  (Iterator.chunk_iterator it = Iterator.chunk_begin it
   \/ exists u, Iterator.unit_at it (Iterator.chunk_iterator it) = Some u
                /\ Iterator.is_low_surrogate u = false) ->
  exists it',
    Iterator.incr it = Some it' /\ Iterator.decr it' = Some it.
Proof.
  intros Hb Hend Hnext Hhigh Hback.
  exists (Iterator.set_chunk_iterator it (Iterator.chunk_iterator it + 1)).
  split.
  - unfold Iterator.incr, Iterator.advance_chunk_if_needed.
    cbn [Iterator.set_chunk_iterator Iterator.chunk_iterator Iterator.chunk_end].
    replace (Iterator.chunk_iterator it + 1 =? Iterator.chunk_end it) with false
      by (symmetry; apply Z.eqb_neq; exact Hend).
    fold (Iterator.set_chunk_iterator it (Iterator.chunk_iterator it + 1)).
    rewrite unit_at_set_chunk_iterator.
    cbn [Iterator.set_chunk_iterator Iterator.chunk_iterator].
    rewrite Hnext, Hhigh. reflexivity.
  - unfold Iterator.decr.
    cbn [Iterator.set_chunk_iterator Iterator.chunk_iterator
         Iterator.chunk_begin].
    replace (Iterator.chunk_iterator it + 1 =? Iterator.chunk_begin it)
      with false by (symmetry; apply Z.eqb_neq; lia).
    cbn [Iterator.chunk_iterator Iterator.chunk_begin].
    replace (Iterator.chunk_iterator it + 1 - 1)
      with (Iterator.chunk_iterator it) by lia.
    destruct it as [cs idx b e i]. cbn in *.
    destruct Hback as [Heq|[u [Hu Hlow]]].
    + subst i. rewrite Z.eqb_refl. reflexivity.
    + destruct (i =? b); [reflexivity|]. cbn [negb].
      rewrite !unit_at_set_chunk_iterator, Hu, Hlow. reflexivity.
Qed.

Lemma decr_undoes_incr_witness :
  exists it',
    Iterator.incr Scenarios.at_start = Some it'
    /\ Iterator.decr it' = Some Scenarios.at_start.
Proof.
  apply (@decr_undoes_incr Scenarios.at_start 98).
  - cbn. lia.
  - cbn. lia.
  - reflexivity.
  - reflexivity.
  - left. reflexivity.
Defined.

(** ** Reads of the buffer *)

Section Read_properties.

Context {Text TextSlice Patch Serializer Deserializer : Type}.
Context {TO : TextOps Text TextSlice}.
Context {PO : PatchOps Text Patch Serializer Deserializer}.

Local Abbreviation Layer := (@Layer Patch).
Local Abbreviation TextBuffer := (@TextBuffer Text Patch).

Lemma run_append_slice (cs : list TextSlice) (result : Text) :
  run_callback append_slice cs result
  = (false, fold_left Text_append cs result).
Proof.
  revert result. induction cs as [|c cs IH]; intros result; simpl.
  - reflexivity.
  - apply IH.
Qed.

(** X7. [text_in_range] of a layer is the concatenation, in order, of the
    slices [chunks_in_range] gives for the same range. *)
Theorem text_in_range_appends_the_chunks (fuel : nat) (base : Text)
    (l : Layer) (below : list Layer) (start end_ : Point)
    (cs : list TextSlice) :
  Layer_chunks_in_range fuel base l below (mkRange start end_) = Some cs ->
  Layer_text_in_range fuel base l below (mkRange start end_)
  = Some (fold_left Text_append cs Text_empty).
Proof.
  intros H. unfold Layer_text_in_range. cbn [range_start range_end].
  rewrite (Layer_for_each_uniform _ _ _ _ _ _ H), run_append_slice.
  reflexivity.
Qed.

Lemma run_line_ending (cs : list TextSlice) (result : list Z) :
  snd (run_callback line_ending_callback cs result)
  = match first_unit cs with
    | None => result
    | Some u => if u =? CR then ending_CRLF else ending_LF
    end.
Proof.
  revert result. induction cs as [|c cs IH]; intros result; simpl.
  - reflexivity.
  - unfold line_ending_callback at 1.
    destruct (TextSlice_units c) as [|u us]; [apply IH|reflexivity].
Qed.

(** X8. [line_ending_for_row] is decided by the first code unit of the
    text between the end of the row and the start of the next one, empty
    slices skipped: CRLF when that unit is CR, LF when it is any other
    unit, and the empty ending when there is no unit. *)
Theorem line_ending_is_decided_by_the_first_unit (fuel : nat)
    (b : TextBuffer) (row : Z) (cs : list TextSlice) :
  Layer_chunks_in_range fuel (base_text b) (top_layer b) (lower b)
    (mkRange (mkPoint row UINT32_MAX) (mkPoint (u32 (row + 1)) 0)) = Some cs ->
  line_ending_for_row fuel b row
  = Some match first_unit cs with
         | None => ending_NONE
         | Some u => if u =? CR then ending_CRLF else ending_LF
         end.
Proof.
  intros H. unfold line_ending_for_row.
  rewrite (Layer_for_each_uniform _ _ _ _ _ _ H).
  pose proof (run_line_ending cs ending_NONE) as Hr.
  destruct (run_callback line_ending_callback cs ending_NONE) as [stop r].
  simpl in Hr. rewrite Hr. reflexivity.
Qed.

Lemma chunks_size_nonneg (cs : list TextSlice) :
  Forall (fun c => 0 <= TextSlice_size c) cs -> 0 <= chunks_size cs.
Proof. intros H. induction H; simpl; lia. Qed.

Lemma chunks_size_cons (c : TextSlice) (cs : list TextSlice) :
  chunks_size (c :: cs) = TextSlice_size c + chunks_size cs.
Proof. reflexivity. Qed.

Lemma chunks_extent_cons (c : TextSlice) (cs : list TextSlice) (p : Point) :
  chunks_extent (c :: cs) p
  = chunks_extent cs (Point_.traverse p (TextSlice_extent c)).
Proof. reflexivity. Qed.

Lemma position_for_offset_callback_hit (goal_offset : Z)
    (pre : list TextSlice) (c : TextSlice) (post : list TextSlice)
    (p : Point) (off : Z) :
  Forall (fun c => 0 <= TextSlice_size c) pre ->
  0 <= off <= goal_offset ->
  (pre <> [] -> off + chunks_size pre < goal_offset) ->
  goal_offset <= off + chunks_size pre + TextSlice_size c ->
  off + chunks_size pre + TextSlice_size c < 4294967296 ->
  run_callback (position_for_offset_callback goal_offset)
    (pre ++ c :: post) (p, off)
  = (true,
     (Point_.traverse (chunks_extent pre p)
        (TextSlice_position_for_offset c
           (goal_offset - (off + chunks_size pre))),
      off + chunks_size pre)).
Proof.
  intros Hall. revert p off.
  induction Hall as [|c' pre Hc' Hall IH]; intros p off Hoff Hpre Hgoal Hmax.
  - cbn [app run_callback chunks_size chunks_extent fold_right fold_left] in *.
    rewrite Z.add_0_r in *. unfold position_for_offset_callback at 1.
    rewrite (u32_small (z := off + TextSlice_size c)) by lia.
    replace (goal_offset <=? off + TextSlice_size c) with true
      by (symmetry; apply Z.leb_le; lia).
    rewrite u32_small by lia. reflexivity.
  - pose proof (chunks_size_nonneg Hall) as Hn.
    specialize (Hpre ltac:(discriminate)).
    rewrite chunks_size_cons in *. rewrite chunks_extent_cons.
    cbn [app run_callback]. unfold position_for_offset_callback at 1.
    rewrite (u32_small (z := off + TextSlice_size c')) by lia.
    replace (goal_offset <=? off + TextSlice_size c') with false
      by (symmetry; apply Z.leb_gt; lia).
    fold (position_for_offset_callback goal_offset).
    rewrite IH; [|lia|intros _; lia|lia|lia].
    replace (off + TextSlice_size c' + chunks_size pre)
      with (off + (TextSlice_size c' + chunks_size pre)) by lia.
    reflexivity.
Qed.

(** X9. For an offset within the text, [position_for_offset] stops at the
    first chunk whose end reaches the offset: the result is the point
    reached through the chunks before it, traversed by that chunk's own
    [position_for_offset] of what is left of the offset. *)
Theorem position_for_offset_within (fuel : nat) (b : TextBuffer)
    (pre : list TextSlice) (c : TextSlice) (post : list TextSlice)
    (goal_offset : Z) :
  chunks fuel b = Some (pre ++ c :: post) ->
  Forall (fun c => 0 <= TextSlice_size c) pre ->
  0 <= goal_offset ->
  (pre <> [] -> chunks_size pre < goal_offset) ->
  goal_offset <= chunks_size pre + TextSlice_size c ->
  chunks_size pre + TextSlice_size c < 4294967296 ->
  position_for_offset fuel b goal_offset
  = Some (Point_.traverse (chunks_extent pre Point_.zero)
            (TextSlice_position_for_offset c (goal_offset - chunks_size pre))).
Proof.
  intros Hchunks Hall H0 Hpre Hgoal Hmax.
  unfold position_for_offset, Layer_position_for_offset.
  unfold chunks, extent in *.
  rewrite (Layer_for_each_uniform _ _ _ _ _ _ Hchunks).
  rewrite position_for_offset_callback_hit;
    [|assumption|lia|intros Hne; specialize (Hpre Hne); lia|lia|lia].
  reflexivity.
Qed.

Lemma u32_cancel (a t : Z) :
  0 <= t < 4294967296 -> u32 (a + t - u32 a) = t.
Proof.
  intros Ht. unfold u32.
  pose proof (Z.div_mod a 4294967296 ltac:(lia)) as Hdm.
  replace (a + t - a mod 4294967296) with (t + (a / 4294967296) * 4294967296)
    by lia.
  rewrite Z.mod_add by lia. apply Z.mod_small. exact Ht.
Qed.

Lemma Point_traverse_nothing (p : Point) :
  Point_valid p -> Point_.traverse p (Point_.traversal p p) = p.
Proof.
  intros [Hr Hc]. unfold Point_.traverse, Point_.traversal.
  rewrite Z.eqb_refl. cbn [row column]. rewrite Z.eqb_refl.
  rewrite Z.sub_diag. change (u32 0) with 0. rewrite Z.add_0_r.
  rewrite u32_small by lia. destruct p; reflexivity.
Qed.

(** X10. [set_text] leaves the buffer with the size and the extent of the
    new text, when the two ends of the old text clip to offset 0 at
    [(0,0)] and to offset [size()]. *)
Theorem set_text_caches_the_new_text (b : TextBuffer) (t : Text) :
  clip_position b (mkPoint 0 0) = mkClip (mkPoint 0 0) 0 ->
  c_offset (clip_position b (extent b)) = size b ->
  0 <= Text_size t < 4294967296 ->
  Point_valid (Text_extent t) ->
  size (set_text b t) = Text_size t
  /\ extent (set_text b t) = Text_extent t.
Proof.
  intros Hstart Hend Hsize Hvalid.
  unfold set_text, set_text_in_range, size, extent, Layer_set_text_in_range.
  cbn [top_layer size_ extent_ range_start range_end].
  unfold clip_position, extent, size in Hstart, Hend.
  rewrite Hstart, Hend. cbn [c_position c_offset].
  rewrite Z.sub_0_r. split.
  - apply u32_cancel. exact Hsize.
  - rewrite traverse_from_zero by exact Hvalid.
    destruct Hvalid as [Hr Hc].
    unfold Point_.traverse, Point_.traversal.
    rewrite Z.eqb_refl. cbn [row column]. rewrite Z.eqb_refl.
    rewrite Z.sub_diag. change (u32 0) with 0. rewrite Z.add_0_r.
    rewrite u32_small by lia. destruct (Text_extent t); reflexivity.
Qed.

Lemma for_each_chunk_loop_nothing (S : Type) (fuel : nat) (p : Patch)
    (v : @Parent TextSlice) (goal : Point) (cb : Callback S)
    (change : option (Change Text)) (current base : Point) (st : S) :
  Point_.ltb current goal = false ->
  for_each_chunk_loop fuel p v goal cb change current base st = Some (false, st).
Proof.
  intros H. destruct fuel; simpl; rewrite H; reflexivity.
Qed.

Lemma clip_position_any_budget (fuel : nat) (base : Text) (l : Layer)
    (below : list Layer) (p : Point) :
  clip_position_ l (previous_of fuel base l below) p
  = Layer_clip_position base l below p.
Proof.
  unfold Layer_clip_position, previous_of.
  destruct (is_first l); [reflexivity|].
  destruct (Layer_view_fuel fuel O base below) as [Hc [Ha Hs]].
  apply clip_position__ext; assumption.
Qed.

(** X11. When the clipped extent of the buffer is not after its clipped
    start (an empty text), iteration never calls the callback, whatever
    the budget: [chunks()] is empty, [text()] is the empty text and
    [position_for_offset] is [(0,0)]. The iterator [search] builds then
    reads [chunks[0]] of a vector without elements. *)
Theorem nothing_to_iterate (fuel : nat) (b : TextBuffer) (o : Z) :
  Point_.ltb (c_position (clip_position b (mkPoint 0 0)))
    (c_position (clip_position b (extent b))) = false ->
  chunks fuel b = Some []
  /\ text fuel b = Some Text_empty
  /\ position_for_offset fuel b o = Some (mkPoint 0 0)
  /\ search_begin fuel b = Some None.
Proof.
  intros H. unfold clip_position in H.
  rewrite <- !(clip_position_any_budget fuel) in H.
  assert (Hc : chunks fuel b = Some []).
  { unfold chunks, Layer_chunks_in_range, Layer_for_each_chunk_in_range,
      for_each_chunk_in_range_. cbn [range_start range_end].
    rewrite for_each_chunk_loop_nothing by exact H. reflexivity. }
  split; [exact Hc|]. split; [|split].
  - unfold text, text_in_range, Layer_text_in_range,
      Layer_for_each_chunk_in_range, for_each_chunk_in_range_.
    cbn [range_start range_end]. unfold Point_.zero.
    rewrite for_each_chunk_loop_nothing by exact H. reflexivity.
  - unfold position_for_offset, Layer_position_for_offset,
      Layer_for_each_chunk_in_range, for_each_chunk_in_range_.
    rewrite for_each_chunk_loop_nothing by exact H. reflexivity.
  - unfold search_begin. rewrite Hc. reflexivity.
Qed.

End Read_properties.

(** ** Snapshots among themselves *)

Section Snapshot_properties.

Context {Text TextSlice Patch Serializer Deserializer : Type}.
Context {TO : TextOps Text TextSlice}.
Context {PO : PatchOps Text Patch Serializer Deserializer}.

Local Abbreviation Layer := (@Layer Patch).
Local Abbreviation TextBuffer := (@TextBuffer Text Patch).

(** Reads through a chain do not look at the pin counts in it. *)
Lemma Layer_view_update_count (fuel : nat) (base : Text) (h : nat) (n : Z)
    (chain : list Layer) :
  Layer_view fuel base
    (update_layer h (fun l => set_snapshot_count l n) chain)
  = Layer_view fuel base chain.
Proof.
  induction chain as [|l below IH]; [reflexivity|].
  cbn [update_layer]. destruct (Nat.eqb (length below) h).
  - reflexivity.
  - cbn [Layer_view]. rewrite IH. reflexivity.
Qed.

Lemma update_layer_length (h : nat) (f : Layer -> Layer) (chain : list Layer) :
  length (update_layer h f chain) = length chain.
Proof.
  induction chain as [|l below IH]; [reflexivity|].
  cbn [update_layer]. destruct (Nat.eqb (length below) h); simpl; congruence.
Qed.

Lemma find_layer_update (h' h : nat) (f : Layer -> Layer)
    (chain : list Layer) :
  find_layer h' (update_layer h f chain)
  = match find_layer h' chain with
    | Some (l, below) =>
        Some (if Nat.eqb h' h then f l else l, update_layer h f below)
    | None => None
    end.
Proof.
  induction chain as [|l below IH]; [reflexivity|].
  cbn [update_layer find_layer].
  destruct (Nat.eqb (length below) h) eqn:Eh.
  - cbn [find_layer]. destruct (Nat.eqb (length below) h') eqn:Eh'.
    + apply Nat.eqb_eq in Eh, Eh'. subst.
      rewrite Nat.eqb_refl. f_equal. f_equal.
      clear. induction below as [|x below IH]; [reflexivity|].
      cbn [update_layer length].
      replace (Nat.eqb (length below) (S (length below))) with false
        by (symmetry; apply Nat.eqb_neq; lia).
      f_equal.
      assert (Hgen : forall k, (length below < k)%nat ->
                update_layer k f below = below).
      { clear. induction below as [|y below IH]; intros k Hk; [reflexivity|].
        cbn [update_layer]. simpl in Hk.
        replace (Nat.eqb (length below) k) with false
          by (symmetry; apply Nat.eqb_neq; lia).
        f_equal. apply IH. lia. }
      symmetry. apply Hgen. lia.
    + destruct (find_layer h' below) as [[l0 below0]|] eqn:E; [|reflexivity].
      f_equal. f_equal.
      * assert (Hlt : (length below0 = h' /\ h' < length below)%nat).
        { clear -E. revert E. induction below as [|y below IH]; simpl;
            [discriminate|].
          destruct (Nat.eqb (length below) h') eqn:Ey.
          - intros H; inversion H; subst. apply Nat.eqb_eq in Ey. lia.
          - intros H. apply IH in H. lia. }
        apply Nat.eqb_eq in Eh.
        replace (Nat.eqb h' h) with false
          by (symmetry; apply Nat.eqb_neq; lia).
        reflexivity.
      * assert (Hlt : (length below0 < length below)%nat).
        { clear -E. revert E. induction below as [|y below IH]; simpl;
            [discriminate|].
          destruct (Nat.eqb (length below) h') eqn:Ey.
          - intros H; inversion H; subst. lia.
          - intros H. apply IH in H. lia. }
        apply Nat.eqb_eq in Eh.
        assert (Hgen : forall k (c : list Layer), (length c < k)%nat ->
                  update_layer k f c = c).
        { clear. intros k c. induction c as [|y c IH]; intros Hk; [reflexivity|].
          cbn [update_layer]. simpl in Hk.
          replace (Nat.eqb (length c) k) with false
            by (symmetry; apply Nat.eqb_neq; lia).
          f_equal. apply IH. lia. }
        symmetry. apply Hgen. lia.
  - cbn [find_layer]. rewrite update_layer_length.
    destruct (Nat.eqb (length below) h') eqn:Eh'.
    + apply Nat.eqb_eq in Eh'. apply Nat.eqb_neq in Eh.
      replace (Nat.eqb h' h) with false
        by (symmetry; apply Nat.eqb_neq; lia).
      reflexivity.
    + exact IH.
Qed.

Lemma Layer_text_in_range_update_count (fuel : nat) (base : Text) (l : Layer)
    (h : nat) (n : Z) (below : list Layer) (r : Range) :
  Layer_text_in_range fuel base l
    (update_layer h (fun l => set_snapshot_count l n) below) r
  = Layer_text_in_range fuel base l below r.
Proof.
  unfold Layer_text_in_range, Layer_for_each_chunk_in_range, previous_of.
  rewrite Layer_view_update_count. reflexivity.
Qed.

Lemma release_pin_chain (b b1 : TextBuffer) (s : Snapshot) (count : Z) :
  release_pin b s = Some (b1, count) ->
  base_text b1 = base_text b
  /\ layers b1
     = update_layer (layer s) (fun l => set_snapshot_count l count) (layers b).
Proof.
  unfold release_pin.
  destruct (find_layer (layer s) (layers b)) as [[l below]|]; [|discriminate].
  destruct (negb (0 <? snapshot_count l)); [discriminate|].
  unfold layers. cbn [update_layer].
  destruct (Nat.eqb (length (lower b)) (layer s));
    cbn [buffer_of_chain]; intros H; inversion H; subst;
    split; reflexivity.
Qed.

(** Releasing a pin changes no snapshot's text. *)
Lemma Snapshot_text_release_pin (fuel : nat) (b b1 : TextBuffer)
    (s s' : Snapshot) (count : Z) :
  release_pin b s = Some (b1, count) ->
  Snapshot_text fuel b1 s' = Snapshot_text fuel b s'.
Proof.
  intros H. apply release_pin_chain in H. destruct H as [Hb Hl].
  unfold Snapshot_text. rewrite Hl, Hb, find_layer_update.
  destruct (find_layer (layer s') (layers b)) as [[l below]|]; [|reflexivity].
  rewrite Layer_text_in_range_update_count.
  destruct (Nat.eqb (layer s') (layer s)); reflexivity.
Qed.

Lemma collect_layers_to_remove_counts (top : Layer) (below : list Layer)
    (removed : list Layer) (l : Layer) (rest : list Layer) :
  collect_layers_to_remove top below = Some (removed, l, rest) ->
  snapshot_count top <= 0 ->
  Forall (fun x => snapshot_count x <= 0) (removed ++ [l]).
Proof.
  revert top removed l rest.
  induction below as [|p below' IH]; intros top removed l rest; simpl.
  - destruct (is_first top); [|discriminate].
    intros H Ht; inversion H; subst. repeat constructor. exact Ht.
  - destruct (is_first top).
    + intros H Ht; inversion H; subst. repeat constructor. exact Ht.
    + destruct (snapshot_count p =? 0) eqn:Ep.
      * destruct (collect_layers_to_remove p below') as [[[rm l'] rest']|] eqn:E;
          [|discriminate].
        intros H Ht; inversion H; subst. simpl. constructor; [exact Ht|].
        apply (IH _ _ _ _ E). apply Z.eqb_eq in Ep. lia.
      * intros H Ht; inversion H; subst. repeat constructor. exact Ht.
Qed.

(** X12. Coalescence touches no pinned layer: a layer that carries a pin
    is neither handed to [Patch::combine] nor the layer the others are
    folded into; it stays, as it is, under the new top layer. *)
Theorem pinned_layers_survive_coalescence (b1 b' : TextBuffer)
    (calls : list (Layer * bool)) (l : Layer) :
  snapshot_count (top_layer b1) <= 0 ->
  coalesce b1 = Some (b', calls) ->
  In l (layers b1) ->
  0 < snapshot_count l ->
  In l (lower b') /\ ~ In l (map fst calls).
Proof.
  intros Htop Hco Hin Hpin. unfold coalesce in Hco.
  destruct (collect_layers_to_remove (top_layer b1) (lower b1))
    as [[[removed L] rest]|] eqn:E; [|discriminate].
  inversion Hco; subst; clear Hco. cbn [lower].
  pose proof (collect_layers_to_remove_counts _ _ E Htop) as Hall.
  pose proof (collect_layers_to_remove_chain _ _ E) as Hchain.
  rewrite Forall_forall in Hall.
  unfold layers in Hin. rewrite Hchain in Hin.
  replace (removed ++ L :: rest) with ((removed ++ [L]) ++ rest) in Hin
    by (rewrite <- app_assoc; reflexivity).
  apply in_app_or in Hin. split.
  - destruct Hin as [Hin|Hin]; [|exact Hin].
    apply Hall in Hin. lia.
  - rewrite combine_calls_layers. intros Hrev. apply in_rev in Hrev.
    assert (Hin' : In l (removed ++ [L])) by (apply in_or_app; left; exact Hrev).
    apply Hall in Hin'. lia.
Qed.

Lemma find_layer_Some (h : nat) (chain : list Layer) (l : Layer)
    (below : list Layer) :
  find_layer h chain = Some (l, below) ->
  (h < length chain)%nat /\ In l chain.
Proof.
  induction chain as [|x chain IH]; simpl; [discriminate|].
  destruct (Nat.eqb (length chain) h) eqn:E.
  - intros H; inversion H; subst. apply Nat.eqb_eq in E. split; [lia|auto].
  - intros H. apply IH in H. destruct H. split; [lia|auto].
Qed.

Lemma find_layer_app (h : nat) (pre rest : list Layer) (l : Layer)
    (below : list Layer) :
  find_layer h (pre ++ rest) = Some (l, below) ->
  In l pre \/ find_layer h rest = Some (l, below).
Proof.
  induction pre as [|x pre IH]; simpl; [auto|].
  destruct (Nat.eqb (length (pre ++ rest)) h).
  - intros H; inversion H; subst. auto.
  - intros H. apply IH in H. destruct H; auto.
Qed.

(** X13. Destroying a snapshot changes nothing in what another live
    snapshot reads: the text of a snapshot that pins another layer is the
    same after the destructor as before, whether the destructor only
    releases the pin or folds layers. *)
Theorem Snapshot_destroy_keeps_other_snapshots (fuel : nat)
    (b b' : TextBuffer) (s s' : Snapshot) (l' : Layer) (below' : list Layer) :
  Snapshot_destroy b s = Some b' ->
  find_layer (layer s') (layers b) = Some (l', below') ->
  layer s' <> layer s ->
  0 < snapshot_count l' ->
  Snapshot_text fuel b' s' = Snapshot_text fuel b s'.
Proof.
  intros Hd Hfind Hne Hpin.
  unfold Snapshot_destroy, Snapshot_destroy_calls in Hd.
  destruct (release_pin b s) as [[b1 count]|] eqn:Hrel; [|discriminate].
  rewrite <- (Snapshot_text_release_pin fuel b s s' Hrel).
  destruct (0 <? count); [inversion Hd; reflexivity|].
  destruct (0 <? snapshot_count (top_layer b1)) eqn:Htop;
    [inversion Hd; reflexivity|].
  apply Z.ltb_ge in Htop.
  destruct (coalesce b1) as [[b2 calls]|] eqn:Hco; [|discriminate].
  inversion Hd; subst b2; clear Hd.
  destruct (release_pin_chain b s Hrel) as [Hb Hl].
  assert (Hfind1 : find_layer (layer s') (layers b1)
                   = Some (l', update_layer (layer s)
                                 (fun l => set_snapshot_count l count) below')).
  { rewrite Hl, find_layer_update, Hfind.
    replace (Nat.eqb (layer s') (layer s)) with false
      by (symmetry; apply Nat.eqb_neq; exact Hne).
    reflexivity. }
  unfold coalesce in Hco.
  destruct (collect_layers_to_remove (top_layer b1) (lower b1))
    as [[[removed L] rest]|] eqn:E; [|discriminate].
  inversion Hco; subst; clear Hco.
  pose proof (collect_layers_to_remove_counts _ _ E Htop) as Hall.
  pose proof (collect_layers_to_remove_chain _ _ E) as Hchain.
  rewrite Forall_forall in Hall.
  unfold Snapshot_text at 1 2. rewrite Hfind1.
  unfold layers in Hfind1. rewrite Hchain in Hfind1.
  replace (removed ++ L :: rest) with ((removed ++ [L]) ++ rest) in Hfind1
    by (rewrite <- app_assoc; reflexivity).
  apply find_layer_app in Hfind1. destruct Hfind1 as [Hin|Hrest].
  - apply Hall in Hin. lia.
  - unfold layers. cbn [top_layer lower base_text].
    rewrite find_layer_below_top
      by (apply find_layer_Some in Hrest; destruct Hrest; assumption).
    rewrite Hrest. reflexivity.
Qed.

(** X14. Destroying one of several snapshots of a layer only takes its pin
    away: no layer is folded, [Patch::combine] is not called, the chain
    keeps its length and every snapshot reads what it read before. *)
Theorem Snapshot_destroy_with_pins_left (fuel : nat) (b : TextBuffer)
    (s s' : Snapshot) (l : Layer) (below : list Layer) :
  find_layer (layer s) (layers b) = Some (l, below) ->
  1 < snapshot_count l < 4294967296 ->
  exists b1,
    Snapshot_destroy_calls b s = Some (b1, [])
    /\ length (layers b1) = length (layers b)
    /\ Snapshot_text fuel b1 s' = Snapshot_text fuel b s'.
Proof.
  intros Hfind Hcount.
  destruct (release_pin b s) as [[b1 count]|] eqn:Hrel.
  - exists b1.
    assert (Hc : count = snapshot_count l - 1).
    { unfold release_pin in Hrel. rewrite Hfind in Hrel.
      destruct (negb (0 <? snapshot_count l)); [discriminate|].
      destruct (buffer_of_chain _ _); [|discriminate].
      inversion Hrel. apply u32_small. lia. }
    unfold Snapshot_destroy_calls. rewrite Hrel.
    replace (0 <? count) with true by (symmetry; apply Z.ltb_lt; lia).
    split; [reflexivity|]. split.
    + destruct (release_pin_chain b s Hrel) as [_ Hl].
      rewrite Hl. apply update_layer_length.
    + apply (Snapshot_text_release_pin fuel b s s' Hrel).
  - exfalso. unfold release_pin in Hrel. rewrite Hfind in Hrel.
    replace (0 <? snapshot_count l) with true in Hrel
      by (symmetry; apply Z.ltb_lt; lia).
    cbn [negb] in Hrel. unfold layers in Hrel. cbn [update_layer] in Hrel.
    destruct (Nat.eqb (length (lower b)) (layer s)); discriminate.
Qed.

End Snapshot_properties.

(** ** Creating and destroying snapshots *)

Section Chain_properties.

Context {Text TextSlice Patch Serializer Deserializer : Type}.
Context {TO : TextOps Text TextSlice}.
Context {PO : PatchOps Text Patch Serializer Deserializer}.

Local Abbreviation Layer := (@Layer Patch).
Local Abbreviation TextBuffer := (@TextBuffer Text Patch).

Lemma Layer_eta (l : Layer) :
  mkLayer (patch l) (extent_ l) (size_ l) (snapshot_count l) (is_first l)
    (is_last l) = l.
Proof. destruct l; reflexivity. Qed.

Lemma TextBuffer_eta (b : TextBuffer) :
  mkTextBuffer (base_text b) (top_layer b) (lower b) = b.
Proof. destruct b; reflexivity. Qed.

(** X15. A snapshot created and destroyed with nothing in between leaves
    the buffer as it was: the layer [create_snapshot] pushed is folded
    back, or the pin it added is taken away. The buffer is well formed,
    the layer under a top layer that is not the first one is pinned, and
    combining a patch with a new, empty one gives the patch back. *)
Theorem create_then_destroy_restores (b b1 : TextBuffer) (s : Snapshot) :
  well_formed b ->
  (is_first (top_layer b) = false ->
   exists p below,
     lower b = p :: below /\ 0 < snapshot_count p < 4294967295) ->
  Patch_combine (patch (top_layer b)) Patch_new true = patch (top_layer b) ->
  create_snapshot b = Some (b1, s) ->
  Snapshot_destroy b1 s = Some b.
Proof.
  intros [Hfirst [Hlast [Hlower Htop]]] Hprev Hcombine Hcreate.
  unfold create_snapshot in Hcreate.
  destruct (negb (is_first (top_layer b))
            && (Patch_get_change_count (patch (top_layer b)) =? 0)) eqn:Hc.
  - apply andb_true_iff in Hc. destruct Hc as [Hnf _].
    apply negb_true_iff in Hnf.
    destruct (Hprev Hnf) as [p [below [Hl Hp]]].
    rewrite Hl in Hcreate. inversion Hcreate; subst b1 s; clear Hcreate.
    unfold Snapshot_destroy, Snapshot_destroy_calls, release_pin, layers.
    cbn [top_layer lower layer base_text].
    rewrite find_layer_below_top by (simpl; lia).
    rewrite find_layer_top. cbn [snapshot_count set_snapshot_count].
    rewrite (u32_small (z := snapshot_count p + 1)) by lia.
    replace (0 <? snapshot_count p + 1) with true
      by (symmetry; apply Z.ltb_lt; lia).
    cbn [negb].
    rewrite update_layer_below_top by (simpl; lia).
    cbn [update_layer]. rewrite Nat.eqb_refl. cbn [buffer_of_chain].
    replace (snapshot_count p + 1 - 1) with (snapshot_count p) by lia.
    rewrite u32_small by lia.
    replace (0 <? snapshot_count p) with true
      by (symmetry; apply Z.ltb_lt; lia).
    cbn [option_map fst]. f_equal.
    unfold set_snapshot_count. cbn. rewrite Layer_eta, <- Hl.
    apply TextBuffer_eta.
  - inversion Hcreate; subst b1 s; clear Hcreate.
    unfold Snapshot_destroy, Snapshot_destroy_calls, release_pin, layers.
    cbn [top_layer lower layer base_text].
    rewrite find_layer_below_top by (simpl; lia).
    rewrite find_layer_top.
    cbn [snapshot_count set_snapshot_count set_is_last].
    rewrite Htop. change (u32 (0 + 1)) with 1. cbn [Z.ltb Z.compare negb].
    rewrite update_layer_below_top by (simpl; lia).
    cbn [update_layer]. rewrite Nat.eqb_refl. cbn [buffer_of_chain].
    change (u32 (1 - 1)) with 0. cbn [Z.ltb Z.compare].
    cbn [top_layer Layer_of_layer snapshot_count Z.ltb Z.compare].
    unfold coalesce.
    cbn [top_layer lower collect_layers_to_remove Layer_of_layer is_first
         snapshot_count set_snapshot_count Z.eqb].
    assert (Hcol : collect_layers_to_remove
                     (set_snapshot_count
                        (set_snapshot_count
                           (set_is_last (top_layer b) false) 1) 0)
                     (lower b)
                   = Some ([], set_snapshot_count
                                 (set_snapshot_count
                                    (set_is_last (top_layer b) false) 1) 0,
                           lower b)).
    { destruct (lower b) as [|p below] eqn:Hl; cbn.
      - simpl in Hfirst. rewrite Hfirst. reflexivity.
      - destruct Hfirst as [Hnf _]. rewrite Hnf.
        destruct (Hprev Hnf) as [p' [below' [Hl' Hp']]].
        inversion Hl'; subst.
        replace (snapshot_count p' =? 0) with false
          by (symmetry; apply Z.eqb_neq; lia).
        reflexivity. }
    rewrite Hcol. cbn [option_map fst rev app combine_calls run_combine_calls
                       fold_left fst snd patch set_extent_size set_patch
                       set_snapshot_count set_is_last extent_ size_
                       Layer_of_layer base_text snapshot_count is_first
                       is_last].
    rewrite Hcombine. f_equal.
    transitivity (mkTextBuffer (base_text b) (top_layer b) (lower b));
      [|apply TextBuffer_eta].
    f_equal. clear -Hlast Htop.
    destruct (top_layer b); cbn in *; subst; reflexivity.
Qed.

(** X16. A second [create_snapshot] with no edit in between pushes no
    layer: it pins the layer the first one pinned, whose count goes up by
    one, and leaves the top layer as it is. A new patch holds no
    change. *)
Theorem create_snapshot_twice_pins_the_same_layer (b b1 : TextBuffer)
    (s : Snapshot) :
  Patch_get_change_count (Patch_new (Patch := Patch)) = 0 ->
  well_formed b ->
  create_snapshot b = Some (b1, s) ->
  exists b2 l below,
    create_snapshot b1 = Some (b2, s)
    /\ top_layer b2 = top_layer b1
    /\ length (lower b2) = length (lower b1)
    /\ find_layer (layer s) (layers b1) = Some (l, below)
    /\ find_layer (layer s) (layers b2)
       = Some (set_snapshot_count l (u32 (snapshot_count l + 1)), below).
Proof.
  intros Hnew [Hfirst _] Hcreate.
  unfold create_snapshot in Hcreate.
  destruct (negb (is_first (top_layer b))
            && (Patch_get_change_count (patch (top_layer b)) =? 0)) eqn:Hc.
  - destruct (lower b) as [|p below] eqn:Hl; [discriminate|].
    inversion Hcreate; subst b1 s; clear Hcreate.
    unfold create_snapshot. cbn [top_layer lower]. rewrite Hc.
    eexists.
    exists (set_snapshot_count p (u32 (snapshot_count p + 1))), below.
    split; [reflexivity|]. cbn [top_layer lower layer].
    split; [reflexivity|]. split; [reflexivity|].
    unfold layers. cbn [top_layer lower].
    split; (rewrite find_layer_below_top by (simpl; lia));
      rewrite find_layer_top; reflexivity.
  - inversion Hcreate; subst b1 s; clear Hcreate.
    unfold create_snapshot. cbn [top_layer lower Layer_of_layer is_first patch].
    rewrite Hnew. cbn [negb andb Z.eqb].
    eexists.
    exists (set_snapshot_count (set_is_last (top_layer b) false)
              (u32 (snapshot_count (set_is_last (top_layer b) false) + 1))),
      (lower b).
    split; [reflexivity|]. cbn [top_layer lower layer].
    split; [reflexivity|]. split; [reflexivity|].
    unfold layers. cbn [top_layer lower].
    split; (rewrite find_layer_below_top by (simpl; lia));
      rewrite find_layer_top; reflexivity.
Qed.

(** X17. On a chain that ends in the first layer, [is_modified] finds the
    end of the chain and says whether some layer of the chain holds a
    change. *)
Theorem is_modified_iff_some_layer_has_changes (b : TextBuffer) :
  first_at_bottom (top_layer b) (lower b) ->
  is_modified b
  = Some (existsb (fun l => 0 <? Patch_get_change_count (patch l)) (layers b)).
Proof.
  unfold is_modified, layers.
  generalize (top_layer b) as l. generalize (lower b) as below.
  induction below as [|l' below IH]; intros l Hfirst; simpl in *.
  - rewrite Hfirst.
    destruct (0 <? Patch_get_change_count (patch l)); reflexivity.
  - destruct Hfirst as [Hnf Hrest]. rewrite Hnf.
    destruct (0 <? Patch_get_change_count (patch l)); [reflexivity|].
    rewrite (IH l' Hrest). reflexivity.
Qed.

End Chain_properties.

(** ** The shape of the chain is kept *)

Section Shape_properties.

Context {Text TextSlice Patch Serializer Deserializer : Type}.
Context {TO : TextOps Text TextSlice}.
Context {PO : PatchOps Text Patch Serializer Deserializer}.

Local Abbreviation Layer := (@Layer Patch).
Local Abbreviation TextBuffer := (@TextBuffer Text Patch).

Lemma first_at_bottom_head (l l' : Layer) (below : list Layer) :
  is_first l' = is_first l ->
  first_at_bottom l below -> first_at_bottom l' below.
Proof.
  intros H. destruct below; simpl; rewrite H; auto.
Qed.

Lemma first_at_bottom_suffix (pre : list Layer) (l : Layer)
    (below : list Layer) (L : Layer) (rest : list Layer) :
  l :: below = pre ++ L :: rest ->
  first_at_bottom l below -> first_at_bottom L rest.
Proof.
  revert l below. induction pre as [|x pre IH]; intros l below Heq Hf.
  - inversion Heq; subst. exact Hf.
  - inversion Heq; subst.
    destruct (pre ++ L :: rest) as [|y below'] eqn:E.
    + destruct pre; discriminate.
    + simpl in Hf. destruct Hf as [_ Hf]. apply (IH y below'); auto.
Qed.

Lemma first_at_bottom_update (h : nat) (n : Z) (l : Layer)
    (below : list Layer) :
  first_at_bottom l below ->
  first_at_bottom l
    (update_layer h (fun x => set_snapshot_count x n) below).
Proof.
  revert l. induction below as [|y below IH]; intros l Hf; [exact Hf|].
  simpl in Hf. destruct Hf as [Hnf Hf]. cbn [update_layer].
  destruct (Nat.eqb (length below) h).
  - split; [exact Hnf|]. eapply first_at_bottom_head; [|exact Hf]. reflexivity.
  - split; [exact Hnf|]. apply IH. exact Hf.
Qed.

Lemma not_last_update (h : nat) (n : Z) (below : list Layer) :
  Forall (fun l => is_last l = false) below ->
  Forall (fun l => is_last l = false)
    (update_layer h (fun x => set_snapshot_count x n) below).
Proof.
  intros H. induction H as [|y below Hy H IH]; [constructor|].
  cbn [update_layer]. destruct (Nat.eqb (length below) h);
    constructor; assumption.
Qed.

Lemma well_formed_new (t : Text) : well_formed (TextBuffer_new t).
Proof. repeat split. constructor. Qed.

Lemma well_formed_create_snapshot (b : TextBuffer) :
  well_formed b ->
  exists b1 s, create_snapshot b = Some (b1, s) /\ well_formed b1.
Proof.
  intros [Hfirst [Hlast [Hlower Htop]]]. unfold create_snapshot.
  destruct (negb (is_first (top_layer b))
            && (Patch_get_change_count (patch (top_layer b)) =? 0)) eqn:Hc.
  - apply andb_true_iff in Hc. destruct Hc as [Hnf _].
    apply negb_true_iff in Hnf.
    destruct (lower b) as [|p below] eqn:Hl.
    + simpl in Hfirst. congruence.
    + do 2 eexists. split; [reflexivity|].
      destruct Hfirst as [_ Hf]. inversion Hlower; subst.
      repeat split; cbn; try assumption.
      * eapply first_at_bottom_head; [|exact Hf]. reflexivity.
      * constructor; assumption.
  - do 2 eexists. split; [reflexivity|].
    repeat split; cbn; try reflexivity.
    + eapply first_at_bottom_head; [|exact Hfirst]. reflexivity.
    + constructor; [reflexivity|assumption].
Qed.

Lemma well_formed_destroy (b b' : TextBuffer) (s : Snapshot) :
  well_formed b -> Snapshot_destroy b s = Some b' -> well_formed b'.
Proof.
  intros [Hfirst [Hlast [Hlower Htop]]].
  unfold Snapshot_destroy, Snapshot_destroy_calls, release_pin, layers.
  cbn [find_layer update_layer].
  destruct (Nat.eqb (length (lower b)) (layer s)) eqn:Eh.
  - rewrite Htop. cbn. discriminate.
  - destruct (find_layer (layer s) (lower b)) as [[l below]|]; [|discriminate].
    destruct (negb (0 <? snapshot_count l)); [discriminate|].
    cbn [buffer_of_chain].
    set (count := u32 (snapshot_count l - 1)).
    set (b1 := {| base_text := base_text b; top_layer := top_layer b;
                  lower := update_layer (layer s)
                             (fun x => set_snapshot_count x count) (lower b) |}).
    assert (Hwf1 : well_formed b1).
    { repeat split; cbn; try assumption.
      - apply first_at_bottom_update. exact Hfirst.
      - apply not_last_update. exact Hlower. }
    destruct (0 <? count); [intros H; inversion H; subst; exact Hwf1|].
    change (snapshot_count (top_layer b1)) with (snapshot_count (top_layer b)).
    rewrite Htop. cbn [Z.ltb Z.compare].
    unfold coalesce.
    destruct (collect_layers_to_remove (top_layer b1) (lower b1))
      as [[[removed L] rest]|] eqn:E; [|discriminate].
    intros H; inversion H; subst b'; clear H.
    destruct Hwf1 as [Hf1 [_ [Hl1 Ht1]]].
    pose proof (collect_layers_to_remove_chain _ _ E) as Hchain.
    pose proof (collect_layers_to_remove_unpinned _ _ E Ht1) as HL.
    repeat split; cbn [top_layer lower set_is_last set_patch set_extent_size
                       is_last snapshot_count].
    + eapply first_at_bottom_head;
        [|eapply first_at_bottom_suffix; [exact Hchain|exact Hf1]].
      reflexivity.
    + destruct removed as [|x removed].
      * cbn [app] in Hchain. injection Hchain as HL' Hrest.
        unfold b1 in Hl1. cbn [lower] in Hl1. rewrite <- Hrest. exact Hl1.
      * cbn [app] in Hchain. injection Hchain as Hx Hrest.
        unfold b1 in Hl1. cbn [lower] in Hl1. rewrite Hrest in Hl1.
        apply Forall_app in Hl1. destruct Hl1 as [_ Hl1].
        inversion Hl1; assumption.
    + exact HL.
Qed.

(** X18. The operations keep the chain well formed: [is_last] stays on
    the top layer alone, [is_first] on the bottom layer alone, and the top
    layer stays without a pin. A buffer just constructed is well formed;
    on a well-formed buffer [create_snapshot] always succeeds; and edits,
    [create_snapshot], the destructor of a snapshot, [reset_base_text],
    [flush_outstanding_changes] and [deserialize_outstanding_changes] give
    a well-formed buffer again. *)
Theorem well_formed_is_kept (b : TextBuffer) :
  well_formed b ->
  (forall e, well_formed (apply_edit b e))
  /\ (exists b1 s, create_snapshot b = Some (b1, s) /\ well_formed b1)
  /\ (forall s b', Snapshot_destroy b s = Some b' -> well_formed b')
  /\ (forall t, well_formed (snd (reset_base_text b t)))
  /\ well_formed (snd (flush_outstanding_changes b))
  /\ (forall d, well_formed (snd (fst (deserialize_outstanding_changes b d)))).
Proof.
  intros Hwf. split; [|split; [|split; [|split; [|split]]]].
  - intros e. destruct Hwf as [Hfirst [Hlast [Hlower Htop]]].
    destruct e; repeat split; cbn; try assumption;
      (eapply first_at_bottom_head; [|exact Hfirst]); reflexivity.
  - apply well_formed_create_snapshot. exact Hwf.
  - intros s b'. apply well_formed_destroy. exact Hwf.
  - intros t. unfold reset_base_text.
    destruct (negb (is_first (top_layer b))); [exact Hwf|].
    destruct Hwf as [Hfirst [Hlast [Hlower Htop]]].
    repeat split; cbn; try assumption.
    eapply first_at_bottom_head; [|exact Hfirst]. reflexivity.
  - unfold flush_outstanding_changes.
    destruct (negb (is_first (top_layer b))); [exact Hwf|].
    destruct Hwf as [Hfirst [Hlast [Hlower Htop]]].
    repeat split; cbn; try assumption.
    eapply first_at_bottom_head; [|exact Hfirst]. reflexivity.
  - intros d. unfold deserialize_outstanding_changes.
    destruct (negb (is_first (top_layer b))
              || (0 <? Patch_get_change_count (patch (top_layer b))));
      [exact Hwf|].
    destruct (Patch_deserialize d) as [p d1].
    destruct (Deserializer_read_u32 d1) as [z d2].
    destruct (Point_deserialize d2) as [e d3].
    destruct Hwf as [Hfirst [Hlast [Hlower Htop]]].
    repeat split; cbn; try assumption.
    eapply first_at_bottom_head; [|exact Hfirst]. reflexivity.
Qed.

(** X19. After [flush_outstanding_changes] or [reset_base_text] has
    succeeded the buffer is not modified, and a flush keeps [size()] and
    [extent()]. A cleared patch holds no change. *)
Theorem flushed_or_reset_is_unmodified (b : TextBuffer) (t : Text) :
  is_first (top_layer b) = true ->
  Patch_get_change_count (Patch_clear (patch (top_layer b))) = 0 ->
  fst (flush_outstanding_changes b) = true
  /\ is_modified (snd (flush_outstanding_changes b)) = Some false
  /\ size (snd (flush_outstanding_changes b)) = size b
  /\ extent (snd (flush_outstanding_changes b)) = extent b
  /\ fst (reset_base_text b t) = true
  /\ is_modified (snd (reset_base_text b t)) = Some false.
Proof.
  intros Hfirst Hclear.
  unfold flush_outstanding_changes, reset_base_text, is_modified.
  rewrite Hfirst. cbn [negb fst snd top_layer lower].
  unfold size, extent. cbn [top_layer].
  destruct (lower b); cbn [is_modified_from patch set_patch set_extent_size
                           is_first size_ extent_];
    rewrite Hclear, Hfirst; repeat split; reflexivity.
Qed.

End Shape_properties.

(** ** Frame of a snapshot *)

Section Frame_properties.

Context {Text TextSlice Patch Serializer Deserializer : Type}.
Context {TO : TextOps Text TextSlice}.
Context {PO : PatchOps Text Patch Serializer Deserializer}.

Local Abbreviation TextBuffer := (@TextBuffer Text Patch).

(** X20. Edits made after [create_snapshot] change none of the other
    reads of the snapshot either: its [size()], [extent()],
    [line_length_for_row], [text_in_range] and [chunks()] are what they
    were when it was returned. *)
Theorem snapshot_reads_after_edits (fuel : nat) (b b1 : TextBuffer)
    (s : Snapshot) (es : list Edit) (row : Z) (r : Range) :
  create_snapshot b = Some (b1, s) ->
  Snapshot_size (apply_edits b1 es) s = Snapshot_size b1 s
  /\ Snapshot_extent (apply_edits b1 es) s = Snapshot_extent b1 s
  /\ Snapshot_line_length_for_row (apply_edits b1 es) s row
     = Snapshot_line_length_for_row b1 s row
  /\ Snapshot_text_in_range fuel (apply_edits b1 es) s r
     = Snapshot_text_in_range fuel b1 s r
  /\ Snapshot_chunks fuel (apply_edits b1 es) s = Snapshot_chunks fuel b1 s.
Proof.
  intros Hcreate.
  pose proof (create_snapshot_pins_below_top _ Hcreate) as Hs.
  destruct (apply_edits_frame es b1) as [Hb Hl].
  unfold Snapshot_size, Snapshot_extent, Snapshot_line_length_for_row,
    Snapshot_text_in_range, Snapshot_chunks, layers.
  rewrite !find_layer_below_top by (rewrite ?Hl; exact Hs).
  rewrite Hb, Hl. repeat split; reflexivity.
Qed.

End Frame_properties.

(** ** Outstanding changes through a stream *)

(** X21. What [serialize_outstanding_changes] writes is what
    [deserialize_outstanding_changes] reads, in the same order: a buffer
    without layers above the first and without changes that
    deserializes the stream of another one gets its patch, its [size()]
    and its [extent()], keeps its own base text, and, over the same base
    text, reads the same [text()]. *)
Theorem serialize_then_deserialize (fuel : nat) (b b0 : ListModel.Buffer) :
  is_first (top_layer b) = true ->
  is_first (top_layer b0) = true ->
  patch (top_layer b0) = [] ->
  exists b0',
    serialize_outstanding_changes b []
    = (true, b, snd (serialize_outstanding_changes b []))
    /\ deserialize_outstanding_changes b0
         (snd (serialize_outstanding_changes b [])) = (true, b0', [])
    /\ patch (top_layer b0') = patch (top_layer b)
    /\ size b0' = size b
    /\ extent b0' = extent b
    /\ base_text b0' = base_text b0
    /\ (base_text b0 = base_text b ->
        is_last (top_layer b0) = is_last (top_layer b) ->
        text fuel b0' = text fuel b).
Proof.
  intros Hb Hb0 Hp0.
  unfold serialize_outstanding_changes, deserialize_outstanding_changes.
  rewrite Hb, Hb0, Hp0. cbn.
  eexists. split; [reflexivity|]. split; [reflexivity|].
  cbn. split; [reflexivity|]. split; [reflexivity|].
  split; [reflexivity|]. split; [reflexivity|].
  intros Hbase Hlast.
  unfold text, text_in_range, extent, Layer_text_in_range,
    Layer_for_each_chunk_in_range, for_each_chunk_in_range_, previous_of,
    clip_position_.
  cbn [top_layer lower base_text set_extent_size set_patch is_first is_last
       patch extent_ range_start range_end].
  rewrite Hb, Hb0, Hbase, Hlast. reflexivity.
Qed.

Lemma serialize_then_deserialize_witness :
  exists b0',
    deserialize_outstanding_changes (ListModel.new [97; 98; 99; 10; 100; 101; 102])
      (snd (serialize_outstanding_changes Scenarios.edited [])) = (true, b0', [])
    /\ text 2 b0' = Some [97; 66; 66; 99; 10; 100; 101; 102].
Proof.
  destruct (@serialize_then_deserialize 2%nat Scenarios.edited
              (ListModel.new [97; 98; 99; 10; 100; 101; 102])
              eq_refl eq_refl eq_refl)
    as [b0' [_ [Hd [_ [_ [_ [_ Ht]]]]]]].
  exists b0'. split; [exact Hd|].
  rewrite (Ht eq_refl eq_refl). reflexivity.
Defined.

(** ** The further properties on concrete buffers *)

Lemma text_in_range_appends_the_chunks_witness :
  Layer_text_in_range 2 (base_text Scenarios.edited)
    (top_layer Scenarios.edited) [] (mkRange (mkPoint 0 0) (mkPoint 1 3))
  = Some [97; 66; 66; 99; 10; 100; 101; 102].
Proof.
  rewrite (@text_in_range_appends_the_chunks _ _ _ _ _ _ _ 2%nat
             (base_text Scenarios.edited) (top_layer Scenarios.edited) []
             (mkPoint 0 0) (mkPoint 1 3) Scenarios.edited_chunks).
  - reflexivity.
  - reflexivity.
Defined.

Lemma line_ending_is_decided_by_the_first_unit_witness :
  line_ending_for_row 1 (ListModel.new Scenarios.abc_crlf_def) 0
  = Some [13; 10]
  /\ line_ending_for_row 1 (ListModel.new Scenarios.abc_crlf_def) 1
     = Some [].
Proof.
  split.
  - rewrite (@line_ending_is_decided_by_the_first_unit _ _ _ _ _ _ _ 1%nat
               (ListModel.new Scenarios.abc_crlf_def) 0 [[13; 10]]);
      reflexivity.
  - rewrite (@line_ending_is_decided_by_the_first_unit _ _ _ _ _ _ _ 1%nat
               (ListModel.new Scenarios.abc_crlf_def) 1 []);
      reflexivity.
Defined.

Lemma position_for_offset_within_witness :
  position_for_offset 2 Scenarios.edited 2 = Some (mkPoint 0 2)
  /\ position_for_offset 2 Scenarios.edited 6 = Some (mkPoint 1 1).
Proof.
  split.
  - rewrite (@position_for_offset_within _ _ _ _ _ _ _ 2%nat Scenarios.edited
               [[97]] [66; 66] [[99; 10; 100; 101; 102]] 2).
    + reflexivity.
    + reflexivity.
    + repeat constructor; vm_compute; discriminate.
    + lia.
    + intros _. vm_compute. reflexivity.
    + vm_compute. discriminate.
    + vm_compute. reflexivity.
  - rewrite (@position_for_offset_within _ _ _ _ _ _ _ 2%nat Scenarios.edited
               [[97]; [66; 66]] [99; 10; 100; 101; 102] [] 6).
    + reflexivity.
    + reflexivity.
    + repeat constructor; vm_compute; discriminate.
    + lia.
    + intros _. vm_compute. reflexivity.
    + vm_compute. discriminate.
    + vm_compute. reflexivity.
Defined.

Lemma set_text_caches_the_new_text_witness :
  size (set_text Scenarios.edited Scenarios.xyz) = 3
  /\ extent (set_text Scenarios.edited Scenarios.xyz) = mkPoint 0 3.
Proof.
  destruct (@set_text_caches_the_new_text _ _ _ _ _ _ _
              Scenarios.edited Scenarios.xyz) as [Hs He].
  - reflexivity.
  - reflexivity.
  - vm_compute. split; [discriminate|reflexivity].
  - vm_compute. repeat split; discriminate.
  - split; [rewrite Hs|rewrite He]; reflexivity.
Defined.

Lemma nothing_to_iterate_witness :
  chunks 0 (ListModel.new []) = Some []
  /\ text 0 (ListModel.new []) = Some []
  /\ position_for_offset 0 (ListModel.new []) 0 = Some (mkPoint 0 0)
  /\ search_begin 0 (ListModel.new []) = Some None.
Proof.
  exact (@nothing_to_iterate _ _ _ _ _ _ _ 0%nat (ListModel.new []) 0
           eq_refl).
Defined.

Lemma pinned_layers_survive_coalescence_witness :
  exists b' calls,
    coalesce Scenarios.younger_released = Some (b', calls)
    /\ snapshot_count (last (lower Scenarios.younger_released)
                         (top_layer Scenarios.younger_released)) = 1
    /\ In (last (lower Scenarios.younger_released)
             (top_layer Scenarios.younger_released)) (lower b')
    /\ ~ In (last (lower Scenarios.younger_released)
               (top_layer Scenarios.younger_released)) (map fst calls).
Proof.
  destruct (coalesce Scenarios.younger_released) as [[b' calls]|] eqn:E;
    [|vm_compute in E; discriminate].
  exists b', calls. split; [reflexivity|]. split; [reflexivity|].
  apply (@pinned_layers_survive_coalescence _ _ _ _ _
           Scenarios.younger_released b' calls _).
  - vm_compute. discriminate.
  - exact E.
  - vm_compute. right. right. left. reflexivity.
  - vm_compute. reflexivity.
Defined.

Lemma Snapshot_destroy_keeps_other_snapshots_witness :
  exists b',
    Snapshot_destroy Scenarios.both_pinned (mkSnapshot 1) = Some b'
    /\ length (layers b') = 2%nat
    /\ Snapshot_text 2 b' (mkSnapshot 0) = Some ListModel.abc.
Proof.
  destruct (Snapshot_destroy Scenarios.both_pinned (mkSnapshot 1))
    as [b'|] eqn:E; [|vm_compute in E; discriminate].
  exists b'. split; [reflexivity|]. split.
  - vm_compute in E. inversion E. reflexivity.
  - rewrite (@Snapshot_destroy_keeps_other_snapshots _ _ _ _ _ _ _ 2%nat
               Scenarios.both_pinned b' (mkSnapshot 1) (mkSnapshot 0)
               (last (lower Scenarios.both_pinned)
                  (top_layer Scenarios.both_pinned)) []).
    + reflexivity.
    + exact E.
    + reflexivity.
    + cbn. lia.
    + vm_compute. reflexivity.
Defined.

Lemma Snapshot_destroy_with_pins_left_witness :
  exists b1,
    Snapshot_destroy_calls Scenarios.twice_pinned (mkSnapshot 0) = Some (b1, [])
    /\ length (layers b1) = length (layers Scenarios.twice_pinned)
    /\ Snapshot_text 2 b1 (mkSnapshot 0)
       = Snapshot_text 2 Scenarios.twice_pinned (mkSnapshot 0).
Proof.
  apply (@Snapshot_destroy_with_pins_left _ _ _ _ _ _ _ 2%nat
           Scenarios.twice_pinned (mkSnapshot 0) (mkSnapshot 0)
           (last (lower Scenarios.twice_pinned)
              (top_layer Scenarios.twice_pinned)) []).
  - reflexivity.
  - vm_compute. split; reflexivity.
Defined.

Lemma create_then_destroy_restores_witness :
  exists b1 s,
    create_snapshot Scenarios.edited = Some (b1, s)
    /\ Snapshot_destroy b1 s = Some Scenarios.edited.
Proof.
  destruct (create_snapshot Scenarios.edited) as [[b1 s]|] eqn:E;
    [|vm_compute in E; discriminate].
  exists b1, s. split; [reflexivity|].
  apply (@create_then_destroy_restores _ _ _ _ _ Scenarios.edited b1 s).
  - repeat split. constructor.
  - intros H. vm_compute in H. discriminate.
  - reflexivity.
  - exact E.
Defined.

Lemma create_snapshot_twice_pins_the_same_layer_witness :
  exists b1 s b2,
    create_snapshot (ListModel.new ListModel.abc) = Some (b1, s)
    /\ create_snapshot b1 = Some (b2, s)
    /\ length (lower b2) = length (lower b1).
Proof.
  destruct (create_snapshot (ListModel.new ListModel.abc)) as [[b1 s]|] eqn:E;
    [|vm_compute in E; discriminate].
  destruct (@create_snapshot_twice_pins_the_same_layer _ _ _ _ _
              (ListModel.new ListModel.abc) b1 s)
    as [b2 [l [below [H1 [_ [H3 _]]]]]].
  - reflexivity.
  - repeat split. constructor.
  - exact E.
  - exists b1, s, b2. split; [reflexivity|]. split; assumption.
Defined.

Lemma is_modified_iff_some_layer_has_changes_witness :
  is_modified Scenarios.both_pinned = Some true
  /\ is_modified Scenarios.unedited_top = Some false.
Proof.
  split.
  - rewrite is_modified_iff_some_layer_has_changes; [reflexivity|].
    vm_compute. repeat split.
  - rewrite is_modified_iff_some_layer_has_changes; [reflexivity|].
    vm_compute. repeat split.
Defined.

Lemma well_formed_is_kept_witness :
  well_formed (apply_edit Scenarios.edited (SetText Scenarios.xyz))
  /\ (exists b1 s,
        create_snapshot Scenarios.edited = Some (b1, s) /\ well_formed b1)
  /\ well_formed (snd (flush_outstanding_changes Scenarios.edited)).
Proof.
  destruct (@well_formed_is_kept _ _ _ _ _ _ _ Scenarios.edited)
    as [H1 [H2 [_ [_ [H5 _]]]]].
  - repeat split. constructor.
  - split; [apply H1|]. split; [exact H2|exact H5].
Defined.

Lemma flushed_or_reset_is_unmodified_witness :
  is_modified Scenarios.edited = Some true
  /\ is_modified (snd (flush_outstanding_changes Scenarios.edited)) = Some false
  /\ size (snd (flush_outstanding_changes Scenarios.edited)) = 8
  /\ is_modified (snd (reset_base_text Scenarios.edited Scenarios.xyz))
     = Some false.
Proof.
  split; [reflexivity|].
  destruct (@flushed_or_reset_is_unmodified _ _ _ _ _ _ _
              Scenarios.edited Scenarios.xyz)
    as [_ [H2 [H3 [_ [_ H6]]]]].
  - reflexivity.
  - reflexivity.
  - split; [exact H2|]. split; [rewrite H3; reflexivity|exact H6].
Defined.

Lemma snapshot_reads_after_edits_witness :
  exists b1 s,
    create_snapshot Scenarios.edited = Some (b1, s)
    /\ Snapshot_size (apply_edits b1 [SetText Scenarios.xyz]) s = Some 8
    /\ Snapshot_extent (apply_edits b1 [SetText Scenarios.xyz]) s
       = Some (mkPoint 1 3)
    /\ size (apply_edits b1 [SetText Scenarios.xyz]) = 3.
Proof.
  destruct (create_snapshot Scenarios.edited) as [[b1 s]|] eqn:E;
    [|vm_compute in E; discriminate].
  exists b1, s. split; [reflexivity|].
  destruct (@snapshot_reads_after_edits _ _ _ _ _ _ _ 2%nat Scenarios.edited
              b1 s [SetText Scenarios.xyz] 0
              (mkRange (mkPoint 0 0) (mkPoint 0 0)) E)
    as [H1 [H2 _]].
  rewrite H1, H2. vm_compute in E. inversion E; subst.
  split; [reflexivity|]. split; reflexivity.
Defined.

(** ** What snapshots leave alone in the buffer *)

Section Buffer_frame_properties.

Context {Text TextSlice Patch Serializer Deserializer : Type}.
Context {TO : TextOps Text TextSlice}.
Context {PO : PatchOps Text Patch Serializer Deserializer}.

Local Abbreviation Layer := (@Layer Patch).
Local Abbreviation TextBuffer := (@TextBuffer Text Patch).

Lemma update_layer_head (h : nat) (n : Z) (l : Layer) (below : list Layer) :
  exists l' below',
    update_layer h (fun x => set_snapshot_count x n) (l :: below)
    = l' :: below'
    /\ size_ l' = size_ l /\ extent_ l' = extent_ l.
Proof.
  cbn [update_layer]. destruct (Nat.eqb (length below) h);
    do 2 eexists; repeat split.
Qed.

(** X22. Creating a snapshot and destroying one leave the buffer's
    [size()], [extent()] and base text as they are, whether or not a layer
    is pushed or layers are folded. *)
Theorem snapshots_keep_size_and_extent (b b' : TextBuffer) (s : Snapshot) :
  (create_snapshot b = Some (b', s) \/ Snapshot_destroy b s = Some b') ->
  size b' = size b /\ extent b' = extent b /\ base_text b' = base_text b.
Proof.
  intros [H|H].
  - unfold create_snapshot in H.
    destruct (negb (is_first (top_layer b))
              && (Patch_get_change_count (patch (top_layer b)) =? 0)).
    + destruct (lower b); [discriminate|].
      inversion H; subst. repeat split.
    + inversion H; subst. repeat split.
  - unfold Snapshot_destroy, Snapshot_destroy_calls, release_pin in H.
    destruct (find_layer (layer s) (layers b)) as [[l below]|];
      [|discriminate].
    destruct (negb (0 <? snapshot_count l)); [discriminate|].
    unfold layers in H.
    destruct (update_layer_head (layer s) (u32 (snapshot_count l - 1))
                (top_layer b) (lower b)) as [t' [below' [Hu [Hs He]]]].
    rewrite Hu in H. cbn [buffer_of_chain] in H.
    destruct (0 <? u32 (snapshot_count l - 1)).
    + inversion H; subst. unfold size, extent. cbn. auto.
    + cbn [top_layer] in H. destruct (0 <? snapshot_count t').
      * inversion H; subst. unfold size, extent. cbn. auto.
      * unfold coalesce in H. cbn [top_layer lower] in H.
        destruct (collect_layers_to_remove t' below')
          as [[[removed L] rest]|]; [|discriminate].
        inversion H; subst. unfold size, extent. cbn. auto.
Qed.

(** X23. [create_snapshot] does not change what the buffer itself reads:
    [text()] after it is [text()] before it. The two lookups of the top
    layer locate the same change at the two ends of the text, a new patch
    locates nothing, and the two ends of the text clip stably through the
    layers under the new top layer. *)
Theorem create_snapshot_keeps_text (fuel : nat) (b b1 : TextBuffer)
    (s : Snapshot) :
  create_snapshot b = Some (b1, s) ->
  lookups_agree (top_layer b) (mkPoint 0 0) ->
  lookups_agree (top_layer b) (extent b) ->
  locates_nothing (Patch_new (Patch := Patch)) ->
  clip_stable (Layer_view O (base_text b1) (lower b1)) (mkPoint 0 0) ->
  clip_stable (Layer_view O (base_text b1) (lower b1)) (extent b) ->
  text fuel b1 = text fuel b.
Proof.
  intros Hcreate H0 He Hnew Hs0 Hse.
  unfold create_snapshot in Hcreate. unfold extent in He.
  destruct (negb (is_first (top_layer b))
            && (Patch_get_change_count (patch (top_layer b)) =? 0)) eqn:Hc.
  - destruct (lower b) as [|p below] eqn:Hl; [discriminate|].
    inversion Hcreate; subst b1 s; clear Hcreate.
    unfold text, text_in_range, extent, Layer_text_in_range,
      Layer_for_each_chunk_in_range, previous_of.
    cbn [top_layer lower base_text]. rewrite Hl. reflexivity.
  - inversion Hcreate; subst b1 s; clear Hcreate.
    cbn [lower base_text] in Hs0, Hse.
    unfold text, text_in_range, extent, Layer_text_in_range.
    cbn [top_layer lower base_text range_start range_end]. unfold Point_.zero.
    rewrite (@pass_through_for_each _ _ _ _ _ _ _ _ fuel (base_text b)
               (Layer_of_layer (set_is_last (top_layer b) false))
               (set_snapshot_count (set_is_last (top_layer b) false)
                  (u32 (snapshot_count (set_is_last (top_layer b) false) + 1)))
               (lower b) append_slice Text_empty);
      [|reflexivity|exact Hnew|reflexivity|exact Hs0|exact Hse].
    pose proof (@pinned_top_text _ _ _ _ _ _ _ fuel (base_text b)
                  (top_layer b)
                  (u32 (snapshot_count (set_is_last (top_layer b) false) + 1))
                  (lower b) H0 He) as Hp.
    unfold Layer_text_in_range in Hp.
    cbn [range_start range_end] in Hp. unfold Point_.zero in Hp.
    exact Hp.
Qed.

End Buffer_frame_properties.

Lemma snapshots_keep_size_and_extent_witness :
  exists b',
    Snapshot_destroy Scenarios.both_pinned (mkSnapshot 1) = Some b'
    /\ size b' = 5 /\ extent b' = mkPoint 0 5.
Proof.
  destruct (Snapshot_destroy Scenarios.both_pinned (mkSnapshot 1))
    as [b'|] eqn:E; [|vm_compute in E; discriminate].
  exists b'. split; [reflexivity|].
  destruct (snapshots_keep_size_and_extent Scenarios.both_pinned
              (or_intror E))
    as [Hs [He _]].
  rewrite Hs, He. split; reflexivity.
Defined.

Lemma create_snapshot_keeps_text_witness :
  exists b1 s,
    create_snapshot Scenarios.edited = Some (b1, s)
    /\ text 2 b1 = Some [97; 66; 66; 99; 10; 100; 101; 102].
Proof.
  destruct (create_snapshot Scenarios.edited) as [[b1 s]|] eqn:E;
    [|vm_compute in E; discriminate].
  exists b1, s. split; [reflexivity|].
  rewrite (create_snapshot_keeps_text 2%nat Scenarios.edited E).
  - reflexivity.
  - reflexivity.
  - reflexivity.
  - intros p. repeat split; reflexivity.
  - vm_compute in E. inversion E; subst.
    repeat split; vm_compute; congruence.
  - vm_compute in E. inversion E; subst.
    repeat split; vm_compute; congruence.
Defined.

